(** * ANYRITE blog backend: a shallow embedding of [server.py]

    The four MongoDB collections are lists of documents in insertion
    order; every handler is a computation in a state-and-exception monad
    over the database.  Values that the source obtains from its
    environment (the clock, [uuid.uuid4], the bcrypt salt) are explicit
    arguments of the handlers.  The two external libraries, passlib's
    [CryptContext] and the [jwt] module, are interfaces (type classes);
    the handlers are parametric in them. *)

From stdpp Require Import base decidable option list strings gmap sorting.
From Stdlib Require Import ZArith Lia Ascii.

Local Open Scope Z_scope.

(** ** Values and instants *)

(** A [datetime] is an instant in microseconds since the epoch, the
    resolution of Python's [datetime].  [isoformat] / [fromisoformat]
    round-trip an instant and, for the UTC instants the server produces,
    the order of the ISO strings is the order of the instants, so the
    stored string is identified with the instant. *)
Definition datetime := Z.

Definition timedelta (days : Z) : Z := days * 86400 * 1000000.

(** The values that occur in token payloads and response dictionaries. *)
Inductive value :=
  | VStr (s : string)
  | VDate (t : datetime).

#[global] Instance value_eq_dec : EqDecision value.
Proof. solve_decision. Defined.

Abbreviation dict := (gmap string value).

(** ** Documents (the pydantic models, as stored) *)

Module User.
(** [User.model_dump()] plus the [password_hash] key that [register]
    adds before the insert. *)
Record t := mk {
  id : string;
  username : string;
  email : string;
  bio : string;
  avatar : string;
  created_at : datetime;
  password_hash : string
}.

(** The stored document as a dictionary (what [find_one] yields). *)
Definition document (u : t) : dict :=
  <["id" := VStr (id u)]>
  (<["username" := VStr (username u)]>
  (<["email" := VStr (email u)]>
  (<["bio" := VStr (bio u)]>
  (<["avatar" := VStr (avatar u)]>
  (<["created_at" := VDate (created_at u)]>
  (<["password_hash" := VStr (password_hash u)]> ∅)))))).
End User.

Module Article.
Record t := mk {
  id : string;
  author_id : string;
  author_username : string;
  title : string;
  content : string;
  tags : list string;
  cover_image : option string;
  likes_count : Z;
  comments_count : Z;
  created_at : datetime;
  updated_at : datetime
}.
End Article.

Module Comment.
Record t := mk {
  id : string;
  article_id : string;
  user_id : string;
  username : string;
  content : string;
  created_at : datetime
}.
End Comment.

Module Like.
Record t := mk {
  id : string;
  article_id : string;
  user_id : string;
  created_at : datetime
}.
End Like.

#[global] Instance user_eq_dec : EqDecision User.t.
Proof. solve_decision. Defined.
#[global] Instance article_eq_dec : EqDecision Article.t.
Proof. solve_decision. Defined.
#[global] Instance comment_eq_dec : EqDecision Comment.t.
Proof. solve_decision. Defined.
#[global] Instance like_eq_dec : EqDecision Like.t.
Proof. solve_decision. Defined.

(** Request bodies. *)
Record UserRegister := {
  reg_username : string;
  reg_email : string;
  reg_password : string
}.

Record UserLogin := {
  login_email : string;
  login_password : string
}.

Record ArticleCreate := {
  new_title : string;
  new_content : string;
  new_tags : list string;
  new_cover_image : option string
}.

(** [ArticleUpdate]: every field is optional and defaults to [None]. *)
Record ArticleUpdate := {
  patch_title : option string;
  patch_content : option string;
  patch_tags : option (list string);
  patch_cover_image : option string
}.

Record CommentCreate := { comment_content : string }.

(** ** The database *)

Record DB := mkDB {
  users : list User.t;
  articles : list Article.t;
  comments : list Comment.t;
  likes : list Like.t
}.

Definition empty_db : DB := mkDB [] [] [] [].

Definition set_users (f : list User.t → list User.t) (d : DB) : DB :=
  mkDB (f (users d)) (articles d) (comments d) (likes d).
Definition set_articles (f : list Article.t → list Article.t) (d : DB) : DB :=
  mkDB (users d) (f (articles d)) (comments d) (likes d).
Definition set_comments (f : list Comment.t → list Comment.t) (d : DB) : DB :=
  mkDB (users d) (articles d) (f (comments d)) (likes d).
Definition set_likes (f : list Like.t → list Like.t) (d : DB) : DB :=
  mkDB (users d) (articles d) (comments d) (f (likes d)).

(** *** Collection operations

    A query is a boolean predicate on documents. *)
Section Collection.
Context {A : Type}.
Implicit Types (q : A → bool) (l : list A).

(** [find_one]: the first document that matches, in natural order. *)
Fixpoint find_one q l : option A :=
  match l with
  | [] => None
  | x :: r => if q x then Some x else find_one q r
  end.

(** [find(query)]: all matching documents. *)
Definition find q l : list A := List.filter q l.

Definition insert_one (x : A) l : list A := l ++ [x].

(** [update_one]: modifies the first matching document only. *)
Fixpoint update_one q (f : A → A) l : list A :=
  match l with
  | [] => []
  | x :: r => if q x then f x :: r else x :: update_one q f r
  end.

(** [delete_one]: removes the first matching document; the first
    component is [result.deleted_count]. *)
Fixpoint delete_one q l : Z * list A :=
  match l with
  | [] => (0, [])
  | x :: r =>
      if q x then (1, r)
      else let '(n, r') := delete_one q r in (n, x :: r')
  end.

Definition delete_many q l : list A := List.filter (λ x, negb (q x)) l.

(** [cursor.to_list(n)]: at most [n] documents. *)
Definition to_list (n : nat) l : list A := take n l.
End Collection.

(** [.sort("created_at", -1)]: newest first. *)
Definition newer_first {A} (created_at : A → datetime) (a b : A) : Prop :=
  created_at b ≤ created_at a.

#[global] Instance newer_first_dec {A} (c : A → datetime) a b :
  Decision (newer_first c a b).
Proof. unfold newer_first. apply _. Defined.

Definition sort_desc {A} (created_at : A → datetime) (l : list A) : list A :=
  merge_sort (newer_first created_at) l.

(** ** Exceptions and the handler monad *)

(** The errors that [jwt.decode] raises.  [TypeError] is what
    subscripting [None] raises, [AttributeError] what the lookup of an
    attribute that a module does not have raises. *)
Inductive jwt_error :=
  | ExpiredSignatureError
  | InvalidSignatureError
  | DecodeError.

Inductive exception :=
  | HTTPException (status_code : Z) (detail : string)
  | JWTException (e : jwt_error)
  | TypeError
  | AttributeError.

#[global] Instance jwt_error_eq_dec : EqDecision jwt_error.
Proof. solve_decision. Defined.
#[global] Instance exception_eq_dec : EqDecision exception.
Proof. solve_decision. Defined.

Inductive outcome (A : Type) :=
  | Returned (a : A)
  | Raised (e : exception).
Arguments Returned {A} a.
Arguments Raised {A} e.

(** A handler reads and writes the database and either returns or
    raises; writes made before a [raise] stay in the database. *)
Definition Handler (A : Type) : Type := DB → outcome A * DB.

Definition ret {A} (a : A) : Handler A := λ d, (Returned a, d).
Definition raise {A} (e : exception) : Handler A := λ d, (Raised e, d).
Definition bind {A B} (m : Handler A) (k : A → Handler B) : Handler B :=
  λ d, match m d with
       | (Returned a, d') => k a d'
       | (Raised e, d') => (Raised e, d')
       end.
Definition try_except {A} (m : Handler A) (h : exception → Handler A)
  : Handler A :=
  λ d, match m d with
       | (Returned a, d') => (Returned a, d')
       | (Raised e, d') => h e d'
       end.
Definition db_read {A} (f : DB → A) : Handler A := λ d, (Returned (f d), d).
Definition db_write (f : DB → DB) : Handler unit := λ d, (Returned tt, f d).

(** stdpp's monad notation: [x ← m; k] and [m;; k]. *)
#[global] Instance handler_ret : MRet Handler := @ret.
#[global] Instance handler_bind : MBind Handler := λ A B k m, bind m k.

(** The named error kinds of the design, as the exceptions the source
    raises for them. *)
Definition Forbidden : exception := HTTPException 403 "Not authorized".
Definition Conflict : exception := HTTPException 400 "User already exists".
Definition TokenExpired : exception := HTTPException 401 "Token expired".
Definition ArticleNotFound : exception := HTTPException 404 "Article not found".
Definition LikeNotFound : exception := HTTPException 404 "Like not found".

Definition InvalidToken : exception := HTTPException 401 "Invalid token".
Definition InvalidAuthentication : exception :=
  HTTPException 401 "Invalid authentication".
Definition UserNotFound : exception := HTTPException 401 "User not found".

(** [TokenInvalid]: the token is rejected for a reason other than its
    age; the source means to report a bad signature or malformed token
    as "Invalid token" and a missing subject as "Invalid
    authentication". *)
Definition TokenInvalid (e : exception) : Prop :=
  e = InvalidToken ∨ e = InvalidAuthentication.

(** ** The external libraries *)

(** [pwd_context = CryptContext(schemes=["bcrypt"])]: [hash] draws a
    salt, which is an argument here. *)
Class CryptContext := {
  pwd_context_hash : string → string → string;
  pwd_context_verify : string → string → bool
}.

(** The [exp] claim is a NumericDate, whole seconds since the epoch: the
    expiry embedded in a token is the instant [expire] cut to seconds. *)
Definition embedded_expiry (expire : datetime) : datetime :=
  expire / 1000000 * 1000000.

(** The [jwt] module: [encode(payload, key)] and [decode(token, key)],
    the latter at the clock reading [now].  The two laws are what the
    server relies on: a token of this key decodes to its own subject
    until it expires and raises [ExpiredSignatureError] afterwards. *)
Class JWT := {
  jwt_encode : dict → string → string;
  jwt_decode : string → string → datetime → jwt_error + dict;
  jwt_decode_live : ∀ payload key expire now,
    payload !! "exp" = Some (VDate expire) →
    now < embedded_expiry expire →
    ∃ claims, jwt_decode (jwt_encode payload key) key now = inr claims
              ∧ claims !! "sub" = payload !! "sub";
  jwt_decode_expired : ∀ payload key expire now,
    payload !! "exp" = Some (VDate expire) →
    embedded_expiry expire < now →
    jwt_decode (jwt_encode payload key) key now = inl ExpiredSignatureError
}.

(** ** The server *)

Record AuthResponse := {
  auth_token : string;
  auth_user : dict
}.

Record ProfileResponse := {
  profile_user : dict;
  profile_articles : list Article.t
}.

Section Server.
Context `{CryptContext} `{JWT}.
(** [SECRET_KEY = os.environ.get('SECRET_KEY', ...)]. *)
Variable SECRET_KEY : string.

Definition hash_password (salt password : string) : string :=
  pwd_context_hash salt password.

Definition verify_password (plain_password hashed_password : string) : bool :=
  pwd_context_verify plain_password hashed_password.

Definition create_access_token (data : dict) (now : datetime) : string :=
  let to_encode := data in
  let expire := now + timedelta 30 in
  let to_encode := <["exp" := VDate expire]> to_encode in
  jwt_encode to_encode SECRET_KEY.

(** [get_current_user]: the body of the [try] and the two [except]
    clauses.  Python evaluates the clauses in order for an exception
    that leaves the body.  [jwt.ExpiredSignatureError] exists and
    catches the expired token.  The imported [jwt] module has no
    attribute [JWTError]: for every other exception, the errors of
    [jwt.decode] and the two [HTTPException]s of the body alike, the
    evaluation of [except jwt.JWTError] raises [AttributeError], which
    leaves the function in place of the exception in flight; the
    clause's own [raise HTTPException(401, "Invalid token")] is never
    reached. *)
Definition get_current_user (credentials : string) (now : datetime)
  : Handler User.t :=
  try_except
    (payload ← match jwt_decode credentials SECRET_KEY now with
               | inr claims => mret claims
               | inl e => raise (JWTException e)
               end;
     match payload !! "sub" with
     | None => raise InvalidAuthentication
     | Some user_id =>
         user ← db_read (λ d,
           find_one (λ u, bool_decide (VStr (User.id u) = user_id)) (users d));
         match user with
         | None => raise UserNotFound
         | Some user => mret user
         end
     end)
    (λ e, match e with
          | JWTException ExpiredSignatureError => raise TokenExpired
          | _ => raise AttributeError
          end).

(** The user object of the [register], [login] and [get_me] responses. *)
Definition user_object (id username email bio avatar : string) : dict :=
  <["id" := VStr id]>
  (<["username" := VStr username]>
  (<["email" := VStr email]>
  (<["bio" := VStr bio]>
  (<["avatar" := VStr avatar]> ∅)))).

(** [register]: [uuid] is the generated id, [created] the clock reading
    of the [User] model, [issued] the one of [create_access_token]. *)
Definition register (user_data : UserRegister)
    (uuid : string) (created : datetime) (salt : string) (issued : datetime)
  : Handler AuthResponse :=
  existing_user ← db_read (λ d,
    find_one (λ u, bool_decide (User.email u = reg_email user_data)
                   || bool_decide (User.username u = reg_username user_data))
             (users d));
  match existing_user with
  | Some _ => raise Conflict
  | None =>
      let user_dict :=
        User.mk uuid (reg_username user_data) (reg_email user_data) EmptyString EmptyString
                created (hash_password salt (reg_password user_data)) in
      db_write (set_users (insert_one user_dict));;
      let token := create_access_token {["sub" := VStr uuid]} issued in
      mret {| auth_token := token;
              auth_user := user_object uuid (reg_username user_data)
                             (reg_email user_data) EmptyString EmptyString |}
  end.

Definition login (credentials : UserLogin) (issued : datetime)
  : Handler AuthResponse :=
  user ← db_read (λ d,
    find_one (λ u, bool_decide (User.email u = login_email credentials))
             (users d));
  match user with
  | None => raise (HTTPException 401 "Invalid credentials")
  | Some user =>
      if negb (verify_password (login_password credentials)
                 (User.password_hash user))
      then raise (HTTPException 401 "Invalid credentials")
      else
        let token :=
          create_access_token {["sub" := VStr (User.id user)]} issued in
        mret {| auth_token := token;
                auth_user := user_object (User.id user) (User.username user)
                               (User.email user) (User.bio user)
                               (User.avatar user) |}
  end.

Definition get_me (current_user : User.t) : Handler dict :=
  mret (user_object (User.id current_user) (User.username current_user)
          (User.email current_user) (User.bio current_user)
          (User.avatar current_user)).

(** *** Articles *)

(** The query of [get_articles]: [if tag:] and [if author:] skip [None]
    and the empty string; [{'tags': tag}] matches a document whose list
    of tags contains [tag]. *)
Definition truthy (s : option string) : bool :=
  match s with
  | None => false
  | Some s => negb (bool_decide (s = EmptyString))
  end.

Definition articles_query (tag author : option string) (a : Article.t) : bool :=
  (if truthy tag then bool_decide (default EmptyString tag ∈ Article.tags a) else true)
  && (if truthy author
      then bool_decide (Article.author_username a = default EmptyString author)
      else true).

Definition get_articles (tag author : option string)
  : Handler (list Article.t) :=
  db_read (λ d,
    to_list 1000 (sort_desc Article.created_at
                    (find (articles_query tag author) (articles d)))).

Definition by_id (article_id : string) (a : Article.t) : bool :=
  bool_decide (Article.id a = article_id).

Definition get_article (article_id : string) : Handler Article.t :=
  article ← db_read (λ d, find_one (by_id article_id) (articles d));
  match article with
  | None => raise ArticleNotFound
  | Some article => mret article
  end.

(** [created] and [updated] are the clock readings of the two
    [default_factory] calls of the [Article] model. *)
Definition create_article (article_data : ArticleCreate)
    (current_user : User.t) (uuid : string) (created updated : datetime)
  : Handler Article.t :=
  let article :=
    Article.mk uuid (User.id current_user) (User.username current_user)
      (new_title article_data) (new_content article_data)
      (new_tags article_data) (new_cover_image article_data)
      0 0 created updated in
  db_write (set_articles (insert_one article));;
  mret article.

(** [{"$set": update_data}], where [update_data] holds the fields of
    the patch that are not [None] and [updated_at]. *)
Definition set_update_data (article_data : ArticleUpdate) (now : datetime)
    (a : Article.t) : Article.t :=
  Article.mk (Article.id a) (Article.author_id a) (Article.author_username a)
    (default (Article.title a) (patch_title article_data))
    (default (Article.content a) (patch_content article_data))
    (default (Article.tags a) (patch_tags article_data))
    (match patch_cover_image article_data with
     | Some c => Some c
     | None => Article.cover_image a
     end)
    (Article.likes_count a) (Article.comments_count a)
    (Article.created_at a) now.

Definition update_article (article_id : string) (article_data : ArticleUpdate)
    (current_user : User.t) (now : datetime) : Handler Article.t :=
  article ← db_read (λ d, find_one (by_id article_id) (articles d));
  match article with
  | None => raise ArticleNotFound
  | Some article =>
      if bool_decide (Article.author_id article ≠ User.id current_user)
      then raise Forbidden
      else
        db_write (set_articles
          (update_one (by_id article_id) (set_update_data article_data now)));;
        updated_article ←
          db_read (λ d, find_one (by_id article_id) (articles d));
        match updated_article with
        | None => raise TypeError
        | Some updated_article => mret updated_article
        end
  end.

Definition delete_article (article_id : string) (current_user : User.t)
  : Handler string :=
  article ← db_read (λ d, find_one (by_id article_id) (articles d));
  match article with
  | None => raise ArticleNotFound
  | Some article =>
      if bool_decide (Article.author_id article ≠ User.id current_user)
      then raise Forbidden
      else
        db_write (set_articles (λ l, (delete_one (by_id article_id) l).2));;
        db_write (set_comments
          (delete_many (λ c, bool_decide (Comment.article_id c = article_id))));;
        db_write (set_likes
          (delete_many (λ l, bool_decide (Like.article_id l = article_id))));;
        mret "Article deleted"%string
  end.

(** *** Likes *)

Definition like_of (article_id user_id : string) (l : Like.t) : bool :=
  bool_decide (Like.article_id l = article_id)
  && bool_decide (Like.user_id l = user_id).

(** [{"$inc": {"likes_count": n}}] and [{"$inc": {"comments_count": n}}]. *)
Definition inc_likes_count (n : Z) (a : Article.t) : Article.t :=
  Article.mk (Article.id a) (Article.author_id a) (Article.author_username a)
    (Article.title a) (Article.content a) (Article.tags a)
    (Article.cover_image a) (Article.likes_count a + n)
    (Article.comments_count a) (Article.created_at a) (Article.updated_at a).

Definition inc_comments_count (n : Z) (a : Article.t) : Article.t :=
  Article.mk (Article.id a) (Article.author_id a) (Article.author_username a)
    (Article.title a) (Article.content a) (Article.tags a)
    (Article.cover_image a) (Article.likes_count a)
    (Article.comments_count a + n) (Article.created_at a)
    (Article.updated_at a).

Definition like_article (article_id : string) (current_user : User.t)
    (uuid : string) (now : datetime) : Handler string :=
  article ← db_read (λ d, find_one (by_id article_id) (articles d));
  match article with
  | None => raise ArticleNotFound
  | Some _ =>
      existing_like ← db_read (λ d,
        find_one (like_of article_id (User.id current_user)) (likes d));
      match existing_like with
      | Some _ => mret "Already liked"%string
      | None =>
          let like := Like.mk uuid article_id (User.id current_user) now in
          db_write (set_likes (insert_one like));;
          db_write (set_articles
            (update_one (by_id article_id) (inc_likes_count 1)));;
          mret "Liked"%string
      end
  end.

Definition unlike_article (article_id : string) (current_user : User.t)
  : Handler string :=
  deleted_count ← (λ d,
    let '(n, l) :=
      delete_one (like_of article_id (User.id current_user)) (likes d) in
    (Returned n, set_likes (λ _, l) d));
  if bool_decide (deleted_count > 0)
  then
    db_write (set_articles
      (update_one (by_id article_id) (inc_likes_count (-1))));;
    mret "Unliked"%string
  else raise LikeNotFound.

Definition is_article_liked (article_id : string) (current_user : User.t)
  : Handler bool :=
  like ← db_read (λ d,
    find_one (like_of article_id (User.id current_user)) (likes d));
  mret (bool_decide (like ≠ None)).

(** *** Comments *)

Definition get_comments (article_id : string) : Handler (list Comment.t) :=
  db_read (λ d,
    to_list 1000 (sort_desc Comment.created_at
      (find (λ c, bool_decide (Comment.article_id c = article_id))
            (comments d)))).

Definition create_comment (article_id : string) (comment_data : CommentCreate)
    (current_user : User.t) (uuid : string) (now : datetime)
  : Handler Comment.t :=
  article ← db_read (λ d, find_one (by_id article_id) (articles d));
  match article with
  | None => raise ArticleNotFound
  | Some _ =>
      let comment :=
        Comment.mk uuid article_id (User.id current_user)
          (User.username current_user) (comment_content comment_data) now in
      db_write (set_comments (insert_one comment));;
      db_write (set_articles
        (update_one (by_id article_id) (inc_comments_count 1)));;
      mret comment
  end.

(** *** User profiles *)

(** The projection [{"password_hash": 0}] drops that key of the
    document. *)
Definition get_user_profile (username : string) : Handler ProfileResponse :=
  user ← db_read (λ d,
    find_one (λ u, bool_decide (User.username u = username)) (users d));
  match user with
  | None => raise (HTTPException 404 "User not found")
  | Some user =>
      articles ← db_read (λ d,
        to_list 100 (sort_desc Article.created_at
          (find (λ a, bool_decide (Article.author_username a = username))
                (articles d))));
      mret {| profile_user := delete "password_hash" (User.document user);
              profile_articles := articles |}
  end.

(** An endpoint that declares [current_user = Depends(get_current_user)]
    runs the dependency first and the handler on its result. *)
Definition Depends {A} (credentials : string) (now : datetime)
    (endpoint : User.t → Handler A) : Handler A :=
  current_user ← get_current_user credentials now;
  endpoint current_user.

End Server.

(** ** A reference model of the two libraries

    Used to run the handlers on concrete inputs.  A token is the binary
    numeral of the code of the pair (payload, key); decoding checks the
    key, then the [exp] claim. *)

#[global] Instance value_countable : Countable value :=
  inj_countable'
    (λ v, match v with VStr s => inl s | VDate t => inr t end)
    (λ x, match x with inl s => VStr s | inr t => VDate t end)
    (λ v, match v with VStr _ => eq_refl | VDate _ => eq_refl end).

Fixpoint string_of_pos (p : positive) : string :=
  match p with
  | xH => EmptyString
  | xO p => String "0"%char (string_of_pos p)
  | xI p => String "1"%char (string_of_pos p)
  end.

Fixpoint pos_of_string (s : string) : option positive :=
  match s with
  | EmptyString => Some xH
  | String c s =>
      p ← pos_of_string s;
      if bool_decide (c = "0"%char) then Some (xO p)
      else if bool_decide (c = "1"%char) then Some (xI p)
      else None
  end.

Definition model_encode (payload : dict) (key : string) : string :=
  string_of_pos (encode (payload, key)).

Definition model_decode (token key : string) (now : datetime)
  : jwt_error + dict :=
  match pos_of_string token ≫= decode (A := dict * string) with
  | None => inl DecodeError
  | Some (payload, key') =>
      if bool_decide (key' = key) then
        match payload !! "exp" with
        | Some (VDate expire) =>
            if bool_decide (embedded_expiry expire ≤ now)
            then inl ExpiredSignatureError
            else inr payload
        | _ => inr payload
        end
      else inl InvalidSignatureError
  end.

Definition model_jwt : JWT.
Proof.
  refine {| jwt_encode := model_encode; jwt_decode := model_decode |}.
  all: intros payload key expire now Hexp Hlt.
  all: assert (Hround : ∀ p, pos_of_string (string_of_pos p) = Some p)
    by (intros p; induction p as [p IH|p IH|]; simpl; rewrite ?IH; done).
  all: unfold model_decode, model_encode.
  all: rewrite Hround; simpl; rewrite decode_encode.
  all: rewrite bool_decide_eq_true_2 by done; rewrite Hexp.
  - exists payload. by rewrite bool_decide_eq_false_2 by lia.
  - by rewrite bool_decide_eq_true_2 by lia.
Defined.

(** A context whose hash is the password itself; enough to run
    [register] and [login] on concrete inputs. *)
Definition model_crypt : CryptContext :=
  {| pwd_context_hash := λ salt password, password;
     pwd_context_verify := λ plain hashed, bool_decide (plain = hashed) |}.

(** ** Vocabulary of the properties *)

(** The document that [register] inserts. *)
Definition registered_user `{CryptContext} (user_data : UserRegister)
    (uuid : string) (created : datetime) (salt : string) : User.t :=
  User.mk uuid (reg_username user_data) (reg_email user_data)
    EmptyString EmptyString created
    (hash_password salt (reg_password user_data)).

(** The documents that [like_article] and [create_comment] insert. *)
Definition new_like (article_id : string) (current_user : User.t)
    (uuid : string) (now : datetime) : Like.t :=
  Like.mk uuid article_id (User.id current_user) now.

Definition new_comment (article_id : string) (comment_data : CommentCreate)
    (current_user : User.t) (uuid : string) (now : datetime) : Comment.t :=
  Comment.mk uuid article_id (User.id current_user)
    (User.username current_user) (comment_content comment_data) now.

(** The [likes_count] of the article stored under an id. *)
Definition likes_count_of (article_id : string) (d : DB) : option Z :=
  Article.likes_count <$> find_one (by_id article_id) (articles d).

(** Two user documents that agree on every field but [password_hash]. *)
Definition same_public (u v : User.t) : Prop :=
  User.id u = User.id v
  ∧ User.username u = User.username v
  ∧ User.email u = User.email v
  ∧ User.bio u = User.bio v
  ∧ User.avatar u = User.avatar v
  ∧ User.created_at u = User.created_at v.

(** Two databases that differ at most in the stored password hashes. *)
Definition differ_only_in_hashes (d1 d2 : DB) : Prop :=
  Forall2 same_public (users d1) (users d2)
  ∧ articles d1 = articles d2
  ∧ comments d1 = comments d2
  ∧ likes d1 = likes d2.

(** The number of documents of a collection whose [key] is [i]. *)
Definition references {A} (key : A → string) (i : string) (l : list A) : nat :=
  length (find (λ x, bool_decide (key x = i)) l).

(** Every article's counters equal the number of like and comment
    records that refer to its id. *)
Definition counters_consistent (d : DB) : Prop :=
  ∀ a, a ∈ articles d →
    Article.likes_count a
      = Z.of_nat (references Like.article_id (Article.id a) (likes d))
    ∧ Article.comments_count a
      = Z.of_nat (references Comment.article_id (Article.id a) (comments d)).

(** Article ids are distinct, and likes and comments refer to stored
    articles. *)
Definition well_formed (d : DB) : Prop :=
  NoDup (Article.id <$> articles d)
  ∧ (∀ l, l ∈ likes d → Like.article_id l ∈ Article.id <$> articles d)
  ∧ (∀ c, c ∈ comments d →
          Comment.article_id c ∈ Article.id <$> articles d).

(** The mutating operations, with the values each draws from its
    environment. *)
Inductive operation :=
  | OpLike (article_id : string) (current_user : User.t)
      (uuid : string) (now : datetime)
  | OpUnlike (article_id : string) (current_user : User.t)
  | OpCreateComment (article_id : string) (comment_data : CommentCreate)
      (current_user : User.t) (uuid : string) (now : datetime)
  | OpCreateArticle (article_data : ArticleCreate) (current_user : User.t)
      (uuid : string) (created updated : datetime)
  | OpUpdateArticle (article_id : string) (article_data : ArticleUpdate)
      (current_user : User.t) (now : datetime)
  | OpDeleteArticle (article_id : string) (current_user : User.t).

(** The database after a handler ran, whether it returned or raised. *)
Definition run (o : operation) (d : DB) : DB :=
  match o with
  | OpLike article_id current_user uuid now =>
      (like_article article_id current_user uuid now d).2
  | OpUnlike article_id current_user =>
      (unlike_article article_id current_user d).2
  | OpCreateComment article_id comment_data current_user uuid now =>
      (create_comment article_id comment_data current_user uuid now d).2
  | OpCreateArticle article_data current_user uuid created updated =>
      (create_article article_data current_user uuid created updated d).2
  | OpUpdateArticle article_id article_data current_user now =>
      (update_article article_id article_data current_user now d).2
  | OpDeleteArticle article_id current_user =>
      (delete_article article_id current_user d).2
  end.

(** [uuid.uuid4()] yields an id that no stored article has. *)
Definition fresh_id (o : operation) (d : DB) : Prop :=
  match o with
  | OpCreateArticle _ _ uuid _ _ => uuid ∉ Article.id <$> articles d
  | _ => True
  end.

(** The states of a sequential execution that starts from the empty
    database. *)
Inductive reachable : DB → Prop :=
  | reachable_empty : reachable empty_db
  | reachable_step d o :
      reachable d → fresh_id o d → reachable (run o d).

(** What every sequential step preserves. *)
Definition invariant (d : DB) : Prop := well_formed d ∧ counters_consistent d.

(** The (article, user) pairs of the stored likes. *)
Definition like_pairs (d : DB) : list (string * string) :=
  (λ l, (Like.article_id l, Like.user_id l)) <$> likes d.

(** No two stored users share an email or a username. *)
Definition users_unique (d : DB) : Prop :=
  NoDup (User.email <$> users d) ∧ NoDup (User.username <$> users d).

(** The query [{"email": email}] of [login]. *)
Definition by_email (email : string) (u : User.t) : bool :=
  bool_decide (User.email u = email).

(** The 401 of [login]. *)
Definition InvalidCredentials : exception :=
  HTTPException 401 "Invalid credentials".

(** The 404 of [get_user_profile]. *)
Definition ProfileNotFound : exception := HTTPException 404 "User not found".

(** ** Sample data *)

(** Two users, one article of alice, one comment and one like of bob. *)
Definition alice : User.t :=
  User.mk "u1" "alice" "alice@example.org" EmptyString EmptyString 10 "hash-a".
Definition bob : User.t :=
  User.mk "u2" "bob" "bob@example.org" EmptyString EmptyString 20 "hash-b".
Definition first_post : Article.t :=
  Article.mk "a1" "u1" "alice" "Hello" "First post" ["intro"; "pixel"] None
    1 1 100 100.
Definition sample_db : DB :=
  mkDB [alice; bob] [first_post]
    [Comment.mk "c1" "a1" "u2" "bob" "Nice" 150]
    [Like.mk "l1" "a1" "u2" 160].
Definition retitle : ArticleUpdate :=
  {| patch_title := Some "Hello again"%string; patch_content := None;
     patch_tags := None; patch_cover_image := None |}.

(** The sample store with other password hashes. *)
Definition rehashed_db : DB :=
  mkDB [User.mk "u1" "alice" "alice@example.org" EmptyString EmptyString 10
          "other-a";
        User.mk "u2" "bob" "bob@example.org" EmptyString EmptyString 20
          "other-b"]
    (articles sample_db) (comments sample_db) (likes sample_db).

(** A store with 1001 articles of tag [x], article [n] created at
    instant [n]. *)
Definition numbered_article (n : nat) : Article.t :=
  Article.mk (string_of_pos (Pos.of_succ_nat n)) "u1" "alice" "t" "c"
    ["x"%string] None 0 0 (Z.of_nat n) (Z.of_nat n).

Definition crowded_db : DB :=
  mkDB [alice] (numbered_article <$> seq 0 1001) [] [].

(** A short run: alice posts, bob likes and comments, alice likes. *)
Definition sample_run : DB :=
  run (OpLike "a1" alice "l2" 5)
    (run (OpCreateComment "a1" {| comment_content := "Nice" |} bob "c1" 4)
       (run (OpLike "a1" bob "l1" 3)
          (run (OpCreateArticle
                  {| new_title := "Hello"; new_content := "First post";
                     new_tags := ["intro"%string]; new_cover_image := None |}
                  alice "a1" 1 2)
             empty_db))).

(** * Properties *)

(** ** Collections *)

Section CollectionFacts.
Context {A : Type}.
Implicit Types (q : A → bool) (l : list A).

Lemma find_one_Some q l x :
  find_one q l = Some x → x ∈ l ∧ q x = true.
Proof.
  induction l as [|y l IH]; simpl; [done|].
  destruct (q y) eqn:Hq.
  - intros [= ->]. split; [left | done].
  - intros Hf. destruct (IH Hf). split; [by right | done].
Qed.

Lemma find_one_None q l :
  find_one q l = None ↔ ∀ x, x ∈ l → q x = false.
Proof.
  induction l as [|y l IH]; simpl.
  - split; [|done]. intros _ x Hx. inversion Hx.
  - destruct (q y) eqn:Hq.
    + split; [done|]. intros Hall.
      specialize (Hall y (list_elem_of_here _ _)). congruence.
    + rewrite IH. split.
      * intros Hall x Hx. inversion Hx; subst; auto.
      * intros Hall x Hx. apply Hall. by right.
Qed.

Lemma find_one_is_Some q l x :
  x ∈ l → q x = true → is_Some (find_one q l).
Proof.
  intros Hx Hq. destruct (find_one q l) eqn:Hf; [eauto|].
  rewrite find_one_None in Hf. rewrite (Hf x Hx) in Hq. done.
Qed.

(** [update_one] rewrites the document at the position of the first
    match and nothing else. *)
Lemma update_one_insert q (f : A → A) l a :
  find_one q l = Some a →
  ∃ i : nat, l !! i = Some a ∧ update_one q f l = <[i := f a]> l.
Proof.
  induction l as [|y l IH]; simpl; [done|].
  destruct (q y) eqn:Hq.
  - intros [= ->]. by exists 0%nat.
  - intros Hf. destruct (IH Hf) as (i & Hi & Hu).
    exists (S i). simpl. by rewrite Hu.
Qed.

Lemma update_one_None q (f : A → A) l :
  find_one q l = None → update_one q f l = l.
Proof.
  induction l as [|y l IH]; simpl; [done|].
  destruct (q y); [done|]. intros Hf. by rewrite IH.
Qed.

Lemma find_one_update_one q (f : A → A) l a :
  find_one q l = Some a → q (f a) = true →
  find_one q (update_one q f l) = Some (f a).
Proof.
  induction l as [|y l IH]; simpl; [done|].
  destruct (q y) eqn:Hq.
  - intros [= ->] Hfa. simpl. by rewrite Hfa.
  - intros Hf Hfa. simpl. rewrite Hq. auto.
Qed.

Lemma elem_of_find q l x : x ∈ find q l ↔ x ∈ l ∧ q x = true.
Proof.
  unfold find. rewrite !list_elem_of_In. apply List.filter_In.
Qed.

Lemma elem_of_delete_many q l x :
  x ∈ delete_many q l ↔ x ∈ l ∧ q x = false.
Proof.
  unfold delete_many. rewrite !list_elem_of_In, List.filter_In.
  by rewrite negb_true_iff.
Qed.

Lemma delete_one_None q l :
  find_one q l = None → delete_one q l = (0, l).
Proof.
  induction l as [|y l IH]; simpl; [done|].
  destruct (q y); [done|]. intros Hf. by rewrite IH.
Qed.

Lemma length_to_list (n : nat) l :
  length (to_list n l) = (n `min` length l)%nat.
Proof. apply length_take. Qed.
End CollectionFacts.

(** Unfolds the monad of a handler applied to a database. *)
Ltac run_handler :=
  unfold mbind, handler_bind, bind, mret, handler_ret, ret, raise,
    try_except, db_read, db_write; simpl.

(** ** Ownership guard on update and delete (C1) *)

Lemma update_article_forbidden d article_id article_data current_user now a :
  find_one (by_id article_id) (articles d) = Some a →
  Article.author_id a ≠ User.id current_user →
  update_article article_id article_data current_user now d
  = (Raised Forbidden, d).
Proof.
  intros Hfind Hne. unfold update_article. run_handler.
  rewrite Hfind. by rewrite bool_decide_eq_true_2.
Qed.

Lemma delete_article_forbidden d article_id current_user a :
  find_one (by_id article_id) (articles d) = Some a →
  Article.author_id a ≠ User.id current_user →
  delete_article article_id current_user d = (Raised Forbidden, d).
Proof.
  intros Hfind Hne. unfold delete_article. run_handler.
  rewrite Hfind. by rewrite bool_decide_eq_true_2.
Qed.

Lemma by_id_set_update_data article_id article_data now a :
  by_id article_id (set_update_data article_data now a) = by_id article_id a.
Proof. done. Qed.

Lemma update_article_author d article_id article_data current_user now a :
  find_one (by_id article_id) (articles d) = Some a →
  Article.author_id a = User.id current_user →
  update_article article_id article_data current_user now d
  = (Returned (set_update_data article_data now a),
     set_articles
       (update_one (by_id article_id) (set_update_data article_data now)) d).
Proof.
  intros Hfind Heq. unfold update_article. run_handler.
  rewrite Hfind. rewrite bool_decide_eq_false_2 by (intros ?; done).
  simpl. erewrite find_one_update_one; [done|done|].
  rewrite by_id_set_update_data. by apply find_one_Some in Hfind as [_ ?].
Qed.

Lemma delete_article_author d article_id current_user a :
  find_one (by_id article_id) (articles d) = Some a →
  Article.author_id a = User.id current_user →
  delete_article article_id current_user d
  = (Returned "Article deleted"%string,
     mkDB (users d)
       (delete_one (by_id article_id) (articles d)).2
       (delete_many (λ c, bool_decide (Comment.article_id c = article_id))
          (comments d))
       (delete_many (λ l, bool_decide (Like.article_id l = article_id))
          (likes d))).
Proof.
  intros Hfind Heq. unfold delete_article. run_handler.
  rewrite Hfind. by rewrite bool_decide_eq_false_2 by (intros ?; done).
Qed.

Lemma length_delete_one_found {A} (q : A → bool) l x :
  find_one q l = Some x → length l = S (length (delete_one q l).2).
Proof.
  induction l as [|y l IH]; simpl; [done|].
  destruct (q y); [done|]. intros Hf. specialize (IH Hf).
  destruct (delete_one q l) as [n l']. simpl in *. by rewrite IH.
Qed.

Lemma delete_one_by_id_gone article_id (l : list Article.t) :
  NoDup (Article.id <$> l) →
  find_one (by_id article_id) (delete_one (by_id article_id) l).2 = None.
Proof.
  induction l as [|x l IH]; simpl; [done|].
  intros [Hx Hnd]%NoDup_cons. unfold by_id at 2.
  destruct (bool_decide_reflect (Article.id x = article_id)) as [Hi|Hi];
    simpl.
  - apply find_one_None. intros y Hy. unfold by_id.
    apply bool_decide_eq_false_2. intros Hyi. apply Hx.
    rewrite Hi, <- Hyi. by apply list_elem_of_fmap_2.
  - specialize (IH Hnd).
    destruct (delete_one (by_id article_id) l) as [n l']. simpl in *.
    unfold by_id at 1. by rewrite bool_decide_eq_false_2.
Qed.

(** C1.  For an article that the store holds under [article_id]: an
    actor who is not its author gets [Forbidden] from both
    [update_article] and [delete_article] and the database is left as it
    was; the author's call returns, and after the author's delete no
    comment and no like refers to [article_id].  The author's calls
    take effect: the update returns the patched article, which is then
    the one stored under the id; the delete removes one article
    document, and with distinct ids no article of that id is left. *)
Theorem owner_guard d article_id a current_user article_data now :
  find_one (by_id article_id) (articles d) = Some a →
  (Article.author_id a ≠ User.id current_user →
     update_article article_id article_data current_user now d
       = (Raised Forbidden, d)
     ∧ delete_article article_id current_user d = (Raised Forbidden, d))
  ∧ (Article.author_id a = User.id current_user →
     (∃ updated d',
        update_article article_id article_data current_user now d
          = (Returned updated, d')
        ∧ updated = set_update_data article_data now a
        ∧ find_one (by_id article_id) (articles d') = Some updated)
     ∧ (∃ d',
        delete_article article_id current_user d
          = (Returned "Article deleted"%string, d')
        ∧ (∀ c, c ∈ comments d' → Comment.article_id c ≠ article_id)
        ∧ (∀ l, l ∈ likes d' → Like.article_id l ≠ article_id)
        ∧ length (articles d) = S (length (articles d'))
        ∧ (NoDup (Article.id <$> articles d) →
           find_one (by_id article_id) (articles d') = None))).
Proof.
  intros Hfind. split.
  - intros Hne. split.
    + by eapply update_article_forbidden.
    + by eapply delete_article_forbidden.
  - intros Heq. split.
    + do 2 eexists. split; [by eapply update_article_author|].
      split; [done|]. simpl. apply find_one_update_one; [done|].
      rewrite by_id_set_update_data. by apply find_one_Some in Hfind as [_ ?].
    + eexists. split; [by eapply delete_article_author|]. simpl.
      split; [|split; [|split]].
      * intros x [_ Hx]%elem_of_delete_many.
        by apply bool_decide_eq_false in Hx.
      * intros x [_ Hx]%elem_of_delete_many.
        by apply bool_decide_eq_false in Hx.
      * by eapply length_delete_one_found.
      * apply delete_one_by_id_gone.
Qed.

Lemma owner_guard_witness :
  find_one (by_id "a1") (articles sample_db) = Some first_post
  ∧ delete_article "a1" bob sample_db = (Raised Forbidden, sample_db).
Proof.
  split; [reflexivity|].
  apply (owner_guard sample_db "a1" first_post bob retitle 200);
    [reflexivity | by vm_compute].
Defined.

(** ** Partial update (C8) *)

(** C8.  When the author updates an article, the stored article changes
    at its own position only; title, content, tags and cover image take
    the value of the patch where the patch provides one and keep their
    value otherwise; id, author id, author username, both counters and
    [created_at] keep their values; [updated_at] becomes the current
    time whatever the patch holds; users, comments and likes are
    untouched. *)
Theorem update_article_frame d article_id a current_user article_data now :
  find_one (by_id article_id) (articles d) = Some a →
  Article.author_id a = User.id current_user →
  ∃ a' d' (i : nat),
    update_article article_id article_data current_user now d
      = (Returned a', d')
    ∧ articles d !! i = Some a
    ∧ articles d' = <[i := a']> (articles d)
    ∧ users d' = users d ∧ comments d' = comments d ∧ likes d' = likes d
    ∧ Article.title a' = default (Article.title a) (patch_title article_data)
    ∧ Article.content a'
      = default (Article.content a) (patch_content article_data)
    ∧ Article.tags a' = default (Article.tags a) (patch_tags article_data)
    ∧ Article.cover_image a'
      = match patch_cover_image article_data with
        | Some c => Some c
        | None => Article.cover_image a
        end
    ∧ Article.id a' = Article.id a
    ∧ Article.author_id a' = Article.author_id a
    ∧ Article.author_username a' = Article.author_username a
    ∧ Article.likes_count a' = Article.likes_count a
    ∧ Article.comments_count a' = Article.comments_count a
    ∧ Article.created_at a' = Article.created_at a
    ∧ Article.updated_at a' = now.
Proof.
  intros Hfind Heq.
  destruct (update_one_insert (by_id article_id)
              (set_update_data article_data now) _ _ Hfind) as (i & Hi & Hu).
  exists (set_update_data article_data now a),
    (set_articles
       (update_one (by_id article_id) (set_update_data article_data now)) d),
    i.
  split; [by apply update_article_author|].
  simpl. by rewrite Hu.
Qed.

Lemma update_article_frame_witness :
  find_one (by_id "a1") (articles sample_db) = Some first_post
  ∧ Article.author_id first_post = User.id alice
  ∧ ∃ a' d' (i : nat),
      update_article "a1" retitle alice 200 sample_db = (Returned a', d')
      ∧ articles sample_db !! i = Some first_post
      ∧ articles d' = <[i := a']> (articles sample_db)
      ∧ Article.title a' = "Hello again"%string
      ∧ Article.content a' = "First post"%string
      ∧ Article.updated_at a' = 200.
Proof.
  split; [reflexivity|]. split; [reflexivity|].
  destruct (update_article_frame sample_db "a1" first_post alice retitle 200
              eq_refl eq_refl)
    as (a' & d' & i & Hrun & Hi & Hins & _ & _ & _ & Ht & Hc & _ & _ & _ & _
        & _ & _ & _ & _ & Hu).
  exists a', d', i. auto 10.
Defined.

(** ** Token lifecycle (C2) *)

Section Tokens.
Context `{JWT}.
Variable SECRET_KEY : string.

Lemma get_current_user_decoded d credentials now claims :
  jwt_decode credentials SECRET_KEY now = inr claims →
  get_current_user SECRET_KEY credentials now d
  = match claims !! "sub" with
    | None => (Raised AttributeError, d)
    | Some user_id =>
        match find_one (λ u, bool_decide (VStr (User.id u) = user_id))
                (users d) with
        | None => (Raised AttributeError, d)
        | Some user => (Returned user, d)
        end
    end.
Proof.
  intros Hdec. unfold get_current_user. run_handler. rewrite Hdec. simpl.
  destruct (claims !! "sub") as [user_id|]; simpl; [|done].
  by destruct (find_one _ (users d)).
Qed.

Lemma get_current_user_jwt_error d credentials now e :
  jwt_decode credentials SECRET_KEY now = inl e →
  get_current_user SECRET_KEY credentials now d
  = (Raised (match e with
             | ExpiredSignatureError => TokenExpired
             | _ => AttributeError
             end), d).
Proof.
  intros Hdec. unfold get_current_user. run_handler. rewrite Hdec. simpl.
  by destruct e.
Qed.

(** The payload that [create_access_token] signs for a subject. *)
Lemma create_access_token_payload (U : string) issued :
  create_access_token SECRET_KEY {["sub" := VStr U]} issued
  = jwt_encode (<["exp" := VDate (issued + timedelta 30)]>
                  {["sub" := VStr U]}) SECRET_KEY.
Proof. done. Qed.

Lemma find_user_by_id d (U : string) :
  U ∈ User.id <$> users d →
  ∃ user, find_one (λ u, bool_decide (VStr (User.id u) = VStr U)) (users d)
          = Some user
          ∧ User.id user = U ∧ user ∈ users d.
Proof.
  intros (u & -> & Hu)%list_elem_of_fmap.
  destruct (find_one_is_Some
              (λ v, bool_decide (VStr (User.id v) = VStr (User.id u)))
              (users d) u Hu) as [user Hfind].
  { by apply bool_decide_eq_true_2. }
  exists user. split; [done|].
  apply find_one_Some in Hfind as [Hin Hq].
  apply bool_decide_eq_true in Hq. by injection Hq.
Qed.

Lemma token_resolves d (U : string) issued now :
  U ∈ User.id <$> users d →
  now < embedded_expiry (issued + timedelta 30) →
  ∃ user,
    get_current_user SECRET_KEY
      (create_access_token SECRET_KEY {["sub" := VStr U]} issued) now d
    = (Returned user, d)
    ∧ User.id user = U ∧ user ∈ users d.
Proof.
  intros HU Hlive. rewrite create_access_token_payload.
  destruct (jwt_decode_live
              (<["exp" := VDate (issued + timedelta 30)]> {["sub" := VStr U]})
              SECRET_KEY (issued + timedelta 30) now)
    as (claims & Hdec & Hsub); [by rewrite lookup_insert_eq | done |].
  rewrite (get_current_user_decoded _ _ _ _ Hdec), Hsub.
  rewrite lookup_insert_ne by done. rewrite lookup_singleton_eq.
  destruct (find_user_by_id d U HU) as (user & Hfind & ? & ?).
  rewrite Hfind. eauto.
Qed.

Lemma token_expires d (U : string) issued now :
  embedded_expiry (issued + timedelta 30) < now →
  get_current_user SECRET_KEY
    (create_access_token SECRET_KEY {["sub" := VStr U]} issued) now d
  = (Raised TokenExpired, d).
Proof.
  intros Hlate. rewrite create_access_token_payload.
  apply (get_current_user_jwt_error d _ now ExpiredSignatureError).
  eapply jwt_decode_expired; [|done]. by rewrite lookup_insert_eq.
Qed.

(** C2, as the program runs.  For a user id [U] of the user store, the
    token that [create_access_token] issues for subject [U] resolves, at
    any time before its embedded expiry, to a stored user whose id is
    [U]; at any time after the expiry [get_current_user] fails with
    [TokenExpired].  A token that the [jwt] module rejects for another
    reason (bad signature, malformed) and a token without a subject
    claim do not get the 401 that the handler means to give: the
    function ends in [AttributeError], raised by [except jwt.JWTError],
    which is no [TokenInvalid] error.  The database is never modified. *)
Theorem token_lifecycle d (U : string) issued :
  U ∈ User.id <$> users d →
  let token := create_access_token SECRET_KEY {["sub" := VStr U]} issued in
  let expiry := embedded_expiry (issued + timedelta 30) in
  (∀ now, now < expiry →
     ∃ user, get_current_user SECRET_KEY token now d = (Returned user, d)
             ∧ User.id user = U ∧ user ∈ users d)
  ∧ (∀ now, expiry < now →
     get_current_user SECRET_KEY token now d = (Raised TokenExpired, d))
  ∧ (∀ credentials now e,
       jwt_decode credentials SECRET_KEY now = inl e →
       e ≠ ExpiredSignatureError →
       get_current_user SECRET_KEY credentials now d
       = (Raised AttributeError, d))
  ∧ (∀ credentials now claims,
       jwt_decode credentials SECRET_KEY now = inr claims →
       claims !! "sub" = None →
       get_current_user SECRET_KEY credentials now d
       = (Raised AttributeError, d))
  ∧ ¬ TokenInvalid AttributeError.
Proof.
  intros HU token expiry. split; [|split; [|split; [|split]]].
  - intros now Hlive. by apply token_resolves.
  - intros now Hlate. by apply token_expires.
  - intros credentials now e Hdec He.
    rewrite (get_current_user_jwt_error _ _ _ _ Hdec). by destruct e.
  - intros credentials now claims Hdec Hsub.
    by rewrite (get_current_user_decoded _ _ _ _ Hdec), Hsub.
  - by intros [?|?].
Qed.

End Tokens.

Lemma token_lifecycle_witness :
  "u1" ∈ User.id <$> users sample_db
  ∧ @jwt_decode model_jwt "not-a-token" "k" 2000 = inl DecodeError
  ∧ @get_current_user model_jwt "k" "not-a-token" 2000 sample_db
    = (Raised AttributeError, sample_db).
Proof.
  assert (Hin : "u1" ∈ User.id <$> users sample_db)
    by (apply (bool_decide_unpack _); vm_compute; exact I).
  assert (Hdec : @jwt_decode model_jwt "not-a-token" "k" 2000
                 = inl DecodeError)
    by (vm_compute; reflexivity).
  split; [exact Hin|]. split; [exact Hdec|].
  destruct (@token_lifecycle model_jwt "k" sample_db "u1" 1000 Hin)
    as (_ & _ & Hbad & _).
  apply (Hbad "not-a-token"%string 2000 DecodeError Hdec). discriminate.
Defined.

(** The reference [jwt] model on an expired token, on a token signed
    with another key, on a string that is no token and on a token
    without a subject. *)
Example get_current_user_expired :
  @get_current_user model_jwt "k"
    (@create_access_token model_jwt "k" {["sub" := VStr "u1"]} 1000)
    (1000 + timedelta 31) sample_db
  = (Raised TokenExpired, sample_db).
Proof. vm_compute. reflexivity. Qed.

Example get_current_user_wrong_key :
  @get_current_user model_jwt "k"
    (@create_access_token model_jwt "other" {["sub" := VStr "u1"]} 1000)
    2000 sample_db
  = (Raised AttributeError, sample_db).
Proof. vm_compute. reflexivity. Qed.

Example get_current_user_malformed :
  @get_current_user model_jwt "k" "not-a-token" 2000 sample_db
  = (Raised AttributeError, sample_db).
Proof. vm_compute. reflexivity. Qed.

Example get_current_user_no_subject :
  @get_current_user model_jwt "k" (@jwt_encode model_jwt ∅ "k") 2000 sample_db
  = (Raised AttributeError, sample_db).
Proof. vm_compute. reflexivity. Qed.

(** ** Registration (C3) *)

Lemma issued_before_expiry issued :
  issued < embedded_expiry (issued + timedelta 30).
Proof.
  unfold embedded_expiry, timedelta.
  pose proof (Z.mul_div_le (issued + 30 * 86400 * 1000000) 1000000).
  pose proof (Z.mod_pos_bound (issued + 30 * 86400 * 1000000) 1000000).
  pose proof (Z.div_mod (issued + 30 * 86400 * 1000000) 1000000).
  lia.
Qed.

Section Registration.
Context `{CryptContext} `{JWT}.
Variable SECRET_KEY : string.

Lemma register_conflict d user_data uuid created salt issued u :
  u ∈ users d →
  User.email u = reg_email user_data
  ∨ User.username u = reg_username user_data →
  register SECRET_KEY user_data uuid created salt issued d
  = (Raised Conflict, d).
Proof.
  intros Hu Hdup. unfold register. run_handler.
  destruct (find_one_is_Some
    (λ u, bool_decide (User.email u = reg_email user_data)
          || bool_decide (User.username u = reg_username user_data))
    (users d) u Hu) as [existing ->]; [|done].
  apply orb_true_iff.
  destruct Hdup; [left | right]; by apply bool_decide_eq_true_2.
Qed.

Lemma register_unique d user_data uuid created salt issued :
  (∀ u, u ∈ users d →
        User.email u ≠ reg_email user_data
        ∧ User.username u ≠ reg_username user_data) →
  register SECRET_KEY user_data uuid created salt issued d
  = (Returned
       {| auth_token :=
            create_access_token SECRET_KEY {["sub" := VStr uuid]} issued;
          auth_user :=
            user_object uuid (reg_username user_data) (reg_email user_data)
              EmptyString EmptyString |},
     set_users (insert_one (registered_user user_data uuid created salt)) d).
Proof.
  intros Hfresh. unfold register. run_handler.
  assert (find_one
    (λ u, bool_decide (User.email u = reg_email user_data)
          || bool_decide (User.username u = reg_username user_data))
    (users d) = None) as ->; [|done].
  apply find_one_None. intros u [He Hn]%Hfresh.
  apply orb_false_iff. split; by apply bool_decide_eq_false_2.
Qed.

(** C3.  A request whose email or username is that of a stored user
    fails with [Conflict] and the database is unchanged.  A request
    whose email and username are both new returns; the user store gains
    exactly the new document, and the returned token resolves through
    [get_current_user] to a user whose id is the new user's id, at the
    moment of issue and at any time before the token's expiry. *)
Theorem registration d user_data uuid created salt issued :
  ((∃ u, u ∈ users d
         ∧ (User.email u = reg_email user_data
            ∨ User.username u = reg_username user_data)) →
   register SECRET_KEY user_data uuid created salt issued d
   = (Raised Conflict, d))
  ∧ ((∀ u, u ∈ users d →
           User.email u ≠ reg_email user_data
           ∧ User.username u ≠ reg_username user_data) →
     ∃ response d',
       register SECRET_KEY user_data uuid created salt issued d
       = (Returned response, d')
       ∧ users d' = users d ++ [registered_user user_data uuid created salt]
       ∧ User.id (registered_user user_data uuid created salt) = uuid
       ∧ (∀ now, now < embedded_expiry (issued + timedelta 30) →
            ∃ user,
              get_current_user SECRET_KEY (auth_token response) now d'
              = (Returned user, d')
              ∧ User.id user = uuid)
       ∧ (∃ user,
            get_current_user SECRET_KEY (auth_token response) issued d'
            = (Returned user, d')
            ∧ User.id user = uuid)).
Proof.
  split.
  - intros (u & Hu & Hdup). by eapply register_conflict.
  - intros Hfresh. do 2 eexists.
    split; [by apply register_unique|].
    assert (Hin : uuid ∈ User.id <$>
              users (set_users
                (insert_one (registered_user user_data uuid created salt)) d)).
    { simpl. unfold insert_one. rewrite fmap_app.
      apply elem_of_app. right. simpl. left. }
    assert (Hres : ∀ now, now < embedded_expiry (issued + timedelta 30) →
      ∃ user,
        get_current_user SECRET_KEY
          (create_access_token SECRET_KEY {["sub" := VStr uuid]} issued) now
          (set_users
             (insert_one (registered_user user_data uuid created salt)) d)
        = (Returned user,
           set_users
             (insert_one (registered_user user_data uuid created salt)) d)
        ∧ User.id user = uuid).
    { intros now Hlive.
      destruct (token_resolves SECRET_KEY _ uuid issued now Hin Hlive)
        as (user & ? & ? & _). eauto. }
    split; [done|]. split; [done|]. split; [exact Hres|].
    apply Hres, issued_before_expiry.
Qed.

End Registration.

Lemma registration_witness :
  (∃ u, u ∈ users sample_db
        ∧ (User.email u = "alice@example.org"%string
           ∨ User.username u = "carol"%string))
  ∧ @register model_crypt model_jwt "k"
      {| reg_username := "carol"; reg_email := "alice@example.org";
         reg_password := "pw" |} "u3" 300 "salt" 301 sample_db
    = (Raised Conflict, sample_db).
Proof.
  assert (Hdup : ∃ u, u ∈ users sample_db
                      ∧ (User.email u = "alice@example.org"%string
                         ∨ User.username u = "carol"%string)).
  { exists alice. split; [left | by left]. }
  split; [exact Hdup|].
  exact (proj1 (@registration model_crypt model_jwt "k" sample_db
                  {| reg_username := "carol"; reg_email := "alice@example.org";
                     reg_password := "pw" |} "u3" 300 "salt" 301) Hdup).
Defined.

Example registration_unique_example :
  ∃ response d',
    @register model_crypt model_jwt "k"
      {| reg_username := "carol"; reg_email := "carol@example.org";
         reg_password := "pw" |} "u3" 300 "salt" 301 sample_db
    = (Returned response, d')
    ∧ User.id <$> users d' = ["u1"; "u2"; "u3"]%string
    ∧ ∃ user,
        @get_current_user model_jwt "k" (auth_token response) 400 d'
        = (Returned user, d')
        ∧ User.id user = "u3"%string.
Proof.
  do 2 eexists. split; [unfold register; run_handler; reflexivity|].
  split; [reflexivity|].
  eexists. split; [vm_compute; reflexivity | reflexivity].
Qed.

(** ** Likes (C5) *)

Lemma set_likes_same d : set_likes (λ _, likes d) d = d.
Proof. by destruct d. Qed.

Lemma delete_one_Some {A} (q : A → bool) l x :
  find_one q l = Some x → (delete_one q l).1 = 1.
Proof.
  induction l as [|y l IH]; simpl; [done|].
  destruct (q y); [done|]. intros Hf. specialize (IH Hf).
  by destruct (delete_one q l).
Qed.

Lemma delete_one_insert_one {A} (q : A → bool) l x :
  find_one q l = None → q x = true →
  delete_one q (insert_one x l) = (1, l).
Proof.
  unfold insert_one. induction l as [|y l IH]; simpl.
  - intros _ ->. done.
  - destruct (q y); [done|]. intros Hf Hq. by rewrite IH.
Qed.

Lemma find_one_insert_one {A} (q : A → bool) l x :
  find_one q l = None → q x = true →
  find_one q (insert_one x l) = Some x.
Proof.
  unfold insert_one. induction l as [|y l IH]; simpl.
  - intros _ ->. done.
  - destruct (q y); [done|]. auto.
Qed.

Lemma like_of_new_like article_id current_user uuid now :
  like_of article_id (User.id current_user)
    (new_like article_id current_user uuid now) = true.
Proof.
  unfold like_of, new_like. simpl. by rewrite !bool_decide_eq_true_2.
Qed.

Lemma like_article_new d article_id current_user uuid now a :
  find_one (by_id article_id) (articles d) = Some a →
  find_one (like_of article_id (User.id current_user)) (likes d) = None →
  like_article article_id current_user uuid now d
  = (Returned "Liked"%string,
     mkDB (users d)
       (update_one (by_id article_id) (inc_likes_count 1) (articles d))
       (comments d)
       (insert_one (new_like article_id current_user uuid now) (likes d))).
Proof.
  intros Ha Hl. unfold like_article. run_handler. by rewrite Ha, Hl.
Qed.

Lemma like_article_existing d article_id current_user uuid now a l :
  find_one (by_id article_id) (articles d) = Some a →
  find_one (like_of article_id (User.id current_user)) (likes d) = Some l →
  like_article article_id current_user uuid now d
  = (Returned "Already liked"%string, d).
Proof.
  intros Ha Hl. unfold like_article. run_handler. by rewrite Ha, Hl.
Qed.

Lemma unlike_article_missing d article_id current_user :
  find_one (like_of article_id (User.id current_user)) (likes d) = None →
  unlike_article article_id current_user d = (Raised LikeNotFound, d).
Proof.
  intros Hl. unfold unlike_article. run_handler.
  rewrite (delete_one_None _ _ Hl). simpl. by rewrite set_likes_same.
Qed.

Lemma unlike_article_present d article_id current_user l :
  find_one (like_of article_id (User.id current_user)) (likes d) = Some l →
  unlike_article article_id current_user d
  = (Returned "Unliked"%string,
     mkDB (users d)
       (update_one (by_id article_id) (inc_likes_count (-1)) (articles d))
       (comments d)
       (delete_one (like_of article_id (User.id current_user)) (likes d)).2).
Proof.
  intros Hl. unfold unlike_article. run_handler.
  pose proof (delete_one_Some _ _ _ Hl) as Hn.
  destruct (delete_one _ (likes d)) as [n l']. simpl in *. by subst n.
Qed.

Lemma likes_count_of_inc d article_id n a us cs ls :
  find_one (by_id article_id) (articles d) = Some a →
  likes_count_of article_id
    (mkDB us (update_one (by_id article_id) (inc_likes_count n) (articles d))
       cs ls)
  = Some (Article.likes_count a + n).
Proof.
  intros Ha. unfold likes_count_of. simpl.
  erewrite find_one_update_one; [done | done |].
  by apply find_one_Some in Ha as [_ ?].
Qed.

(** C5, as the source has it.  For an article of the store and a user
    who has no like on it: the first [like_article] answers "Liked", the
    second answers "Already liked" and changes nothing, and the
    article's [likes_count] is then one more than at the start; a
    following [unlike_article] answers "Unliked" and brings
    [likes_count] back to its first value.  [unlike_article] without a
    like record of the pair fails with [LikeNotFound] and leaves the
    database, hence the counter, as it was. *)
Theorem like_unlike_counter d article_id a current_user
    uuid1 now1 uuid2 now2 :
  find_one (by_id article_id) (articles d) = Some a →
  find_one (like_of article_id (User.id current_user)) (likes d) = None →
  (∃ d1 d3,
     like_article article_id current_user uuid1 now1 d
       = (Returned "Liked"%string, d1)
     ∧ like_article article_id current_user uuid2 now2 d1
       = (Returned "Already liked"%string, d1)
     ∧ likes_count_of article_id d1 = Some (Article.likes_count a + 1)
     ∧ unlike_article article_id current_user d1
       = (Returned "Unliked"%string, d3)
     ∧ likes_count_of article_id d3 = Some (Article.likes_count a)
     ∧ likes d3 = likes d)
  ∧ unlike_article article_id current_user d = (Raised LikeNotFound, d).
Proof.
  intros Ha Hl. split; [|by apply unlike_article_missing].
  pose (like := new_like article_id current_user uuid1 now1).
  pose (d1 := mkDB (users d)
    (update_one (by_id article_id) (inc_likes_count 1) (articles d))
    (comments d) (insert_one like (likes d))).
  assert (Ha1 : find_one (by_id article_id) (articles d1)
                = Some (inc_likes_count 1 a)).
  { simpl. apply find_one_update_one; [done|].
    by apply find_one_Some in Ha as [_ ?]. }
  assert (Hl1 : find_one (like_of article_id (User.id current_user))
                  (likes d1) = Some like).
  { simpl. apply find_one_insert_one; [done|]. apply like_of_new_like. }
  exists d1, (mkDB (users d1)
    (update_one (by_id article_id) (inc_likes_count (-1)) (articles d1))
    (comments d1)
    (delete_one (like_of article_id (User.id current_user)) (likes d1)).2).
  split; [by eapply like_article_new|].
  split; [by eapply like_article_existing|].
  split; [by apply likes_count_of_inc|].
  split; [by eapply unlike_article_present|].
  split.
  - rewrite (likes_count_of_inc d1 article_id (-1) _ _ _ _ Ha1). simpl.
    f_equal. lia.
  - simpl. rewrite delete_one_insert_one; [done | done |].
    apply like_of_new_like.
Qed.

Lemma like_unlike_counter_witness :
  find_one (by_id "a1") (articles sample_db) = Some first_post
  ∧ find_one (like_of "a1" (User.id alice)) (likes sample_db) = None
  ∧ unlike_article "a1" alice sample_db = (Raised LikeNotFound, sample_db).
Proof.
  split; [reflexivity|]. split; [reflexivity|].
  apply (like_unlike_counter sample_db "a1" first_post alice
           "l2" 170 "l3" 180); reflexivity.
Defined.

(** The claim without the condition on the user fails: bob already has
    a like on the sample article, and liking twice more leaves the
    counter where it was. *)
Lemma like_twice_counterexample :
  ¬ (∀ d article_id a current_user uuid1 now1 uuid2 now2,
       find_one (by_id article_id) (articles d) = Some a →
       likes_count_of article_id
         (like_article article_id current_user uuid2 now2
            (like_article article_id current_user uuid1 now1 d).2).2
       = Some (Article.likes_count a + 1)).
Proof.
  intros Hclaim.
  specialize (Hclaim sample_db "a1"%string first_post bob
                "l2"%string 170 "l3"%string 180 eq_refl).
  vm_compute in Hclaim. discriminate Hclaim.
Qed.

(** ** Listings (C9, C10) *)

#[global] Instance newer_first_total {A} (c : A → datetime) :
  Total (newer_first c).
Proof. intros a b. unfold newer_first. lia. Qed.

#[global] Instance newer_first_trans {A} (c : A → datetime) :
  Transitive (newer_first c).
Proof. intros x y z. unfold newer_first. lia. Qed.

Lemma sort_desc_sorted {A} (c : A → datetime) l :
  StronglySorted (newer_first c) (sort_desc c l).
Proof. apply StronglySorted_merge_sort; apply _. Qed.

Lemma sort_desc_perm {A} (c : A → datetime) l : sort_desc c l ≡ₚ l.
Proof. apply merge_sort_Permutation. Qed.

Lemma length_sort_desc {A} (c : A → datetime) l :
  length (sort_desc c l) = length l.
Proof. by rewrite sort_desc_perm. Qed.

(** A boolean query and the set of documents it denotes. *)
Lemma find_bool_decide {A} (P : A → Prop) `{∀ x, Decision (P x)} (q : A → bool) l :
  (∀ x, q x = bool_decide (P x)) → find q l = filter P l.
Proof.
  intros Hq. unfold find. induction l as [|x l IH]; simpl; [done|].
  rewrite filter_cons, Hq, IH.
  destruct (decide (P x));
    [by rewrite bool_decide_eq_true_2 | by rewrite bool_decide_eq_false_2].
Qed.

Lemma articles_query_tag X a :
  X ≠ EmptyString →
  articles_query (Some X) None a = bool_decide (X ∈ Article.tags a).
Proof.
  intros HX. unfold articles_query. simpl.
  rewrite bool_decide_eq_false_2 by done. simpl. apply andb_true_r.
Qed.

(** C9, as the source has it.  With a non-empty tag [X] and no author,
    [get_articles] returns the first 1000 entries of a list that holds
    exactly the stored articles whose tags contain [X], newest first;
    when at most 1000 articles carry the tag the result is that whole
    list. *)
Theorem get_articles_by_tag d X :
  X ≠ EmptyString →
  ∃ sorted,
    get_articles (Some X) None d = (Returned (take 1000 sorted), d)
    ∧ sorted ≡ₚ filter (λ a, X ∈ Article.tags a) (articles d)
    ∧ StronglySorted (newer_first Article.created_at) sorted
    ∧ StronglySorted (newer_first Article.created_at) (take 1000 sorted)
    ∧ (∀ a b, a ∈ take 1000 sorted → b ∈ drop 1000 sorted →
              Article.created_at b ≤ Article.created_at a)
    ∧ (∀ a, a ∈ take 1000 sorted → a ∈ articles d ∧ X ∈ Article.tags a)
    ∧ ((length (filter (λ a, X ∈ Article.tags a) (articles d)) ≤ 1000)%nat →
       take 1000 sorted = sorted).
Proof.
  intros HX.
  exists (sort_desc Article.created_at
            (find (articles_query (Some X) None) (articles d))).
  assert (Hfind : find (articles_query (Some X) None) (articles d)
                  = filter (λ a, X ∈ Article.tags a) (articles d)).
  { apply find_bool_decide. intros a. by apply articles_query_tag. }
  split; [done|]. rewrite Hfind.
  split; [apply sort_desc_perm|].
  split; [apply sort_desc_sorted|].
  pose proof (sort_desc_sorted Article.created_at
    (filter (λ a, X ∈ Article.tags a) (articles d))) as Hs.
  rewrite <- (take_drop 1000 (sort_desc _ _)) in Hs.
  apply StronglySorted_app in Hs as (Hcross & Htake & _).
  split; [exact Htake|]. split; [exact Hcross|].
  - split.
    + intros a Ha%elem_of_take. destruct Ha as (i & Hi & _).
      apply list_elem_of_lookup_2 in Hi. rewrite sort_desc_perm in Hi.
      apply list_elem_of_filter in Hi. tauto.
    + intros Hlen. apply take_ge. by rewrite length_sort_desc.
Qed.

Lemma get_articles_by_tag_witness :
  "pixel"%string ≠ EmptyString
  ∧ ∃ sorted,
      get_articles (Some "pixel"%string) None sample_db
      = (Returned (take 1000 sorted), sample_db)
      ∧ sorted ≡ₚ filter (λ a, "pixel"%string ∈ Article.tags a)
                    (articles sample_db).
Proof.
  split; [discriminate|].
  destruct (get_articles_by_tag sample_db "pixel"
              ltac:(discriminate)) as (sorted & Hrun & Hperm & _).
  exists sorted. split; assumption.
Defined.

(** The claim as stated fails on the crowded store: the oldest article
    carries the tag and is not returned. *)
Lemma get_articles_by_tag_counterexample :
  ¬ (∀ d X l,
       X ≠ EmptyString →
       get_articles (Some X) None d = (Returned l, d) →
       ∀ a, a ∈ articles d → X ∈ Article.tags a → a ∈ l).
Proof.
  intros Hclaim.
  specialize (Hclaim crowded_db "x"%string _ ltac:(discriminate) eq_refl
                (numbered_article 0)).
  assert (Hin : numbered_article 0 ∈ articles crowded_db).
  { apply (list_elem_of_fmap_2 numbered_article (seq 0 1001) 0%nat).
    apply elem_of_seq. lia. }
  specialize (Hclaim Hin ltac:(left)).
  apply (bool_decide_pack _) in Hclaim.
  vm_compute in Hclaim. exact Hclaim.
Qed.

(** C10.  Every listing is cut: [get_articles] and [get_comments] return
    the first 1000 matching documents and [get_user_profile] the first
    100 articles of the user, whatever the number of matches. *)
Theorem listings_truncated d :
  (∀ tag author, ∃ l,
     get_articles tag author d = (Returned l, d)
     ∧ (length l ≤ 1000)%nat
     ∧ length l
       = (1000 `min` length (find (articles_query tag author) (articles d)))%nat)
  ∧ (∀ article_id, ∃ l,
     get_comments article_id d = (Returned l, d)
     ∧ (length l ≤ 1000)%nat
     ∧ length l
       = (1000 `min`
          length (find (λ c, bool_decide (Comment.article_id c = article_id))
                    (comments d)))%nat)
  ∧ (∀ username,
     is_Some (find_one (λ u, bool_decide (User.username u = username))
                (users d)) →
     ∃ r,
       get_user_profile username d = (Returned r, d)
       ∧ (length (profile_articles r) ≤ 100)%nat
       ∧ length (profile_articles r)
         = (100 `min`
            length (find (λ a, bool_decide
                                 (Article.author_username a = username))
                      (articles d)))%nat).
Proof.
  split; [|split].
  - intros tag author. eexists. split; [reflexivity|]. cbv beta.
    rewrite (length_to_list 1000), length_sort_desc. lia.
  - intros article_id. eexists. split; [reflexivity|]. cbv beta.
    rewrite (length_to_list 1000), length_sort_desc. lia.
  - intros username [u Hu].
    exists {| profile_user := delete "password_hash" (User.document u);
              profile_articles :=
                to_list 100 (sort_desc Article.created_at
                  (find (λ a, bool_decide
                                (Article.author_username a = username))
                     (articles d))) |}.
    split.
    + unfold get_user_profile. run_handler. rewrite Hu. reflexivity.
    + cbn [profile_articles].
      rewrite (length_to_list 100), length_sort_desc. lia.
Qed.

Example get_articles_crowded :
  ∃ l, get_articles (Some "x"%string) None crowded_db
       = (Returned l, crowded_db)
       ∧ length l = 1000%nat
       ∧ length (find (articles_query (Some "x"%string) None)
                   (articles crowded_db)) = 1001%nat.
Proof. eexists. split; [reflexivity|]. by vm_compute. Qed.

(** ** The password hash stays inside the store (C7) *)

Lemma find_one_same_public (q : User.t → bool) l1 l2 :
  (∀ u v, same_public u v → q u = q v) →
  Forall2 same_public l1 l2 →
  option_Forall2 same_public (find_one q l1) (find_one q l2).
Proof.
  intros Hq Hl. induction Hl as [|u v l1 l2 Huv Hl IH]; simpl.
  - constructor.
  - rewrite <- (Hq u v Huv). destruct (q u); [by constructor | done].
Qed.

Lemma user_object_same_public u v :
  same_public u v →
  user_object (User.id u) (User.username u) (User.email u) (User.bio u)
    (User.avatar u)
  = user_object (User.id v) (User.username v) (User.email v) (User.bio v)
      (User.avatar v).
Proof. intros (-> & -> & -> & -> & -> & _). done. Qed.

Lemma user_object_no_hash id username email bio avatar :
  user_object id username email bio avatar !! "password_hash" = None.
Proof. unfold user_object. by rewrite !lookup_insert_ne. Qed.

(** The projected document: every key of the model but [password_hash]. *)
Lemma document_projection u :
  delete "password_hash" (User.document u)
  = <["id" := VStr (User.id u)]>
    (<["username" := VStr (User.username u)]>
    (<["email" := VStr (User.email u)]>
    (<["bio" := VStr (User.bio u)]>
    (<["avatar" := VStr (User.avatar u)]>
    (<["created_at" := VDate (User.created_at u)]> ∅))))).
Proof.
  unfold User.document.
  rewrite !(delete_insert_ne _ "password_hash") by done.
  by rewrite delete_insert_eq, delete_empty.
Qed.

Lemma document_projection_same_public u v :
  same_public u v →
  delete "password_hash" (User.document u)
  = delete "password_hash" (User.document v).
Proof.
  intros (Hi & Hn & He & Hb & Ha & Hc).
  rewrite !document_projection. congruence.
Qed.

Section Exposure.
Context `{CryptContext} `{JWT}.
Variable SECRET_KEY : string.
Variables d1 d2 : DB.
Hypothesis Hdiff : differ_only_in_hashes d1 d2.

Lemma get_me_same credentials now :
  (Depends SECRET_KEY credentials now get_me d1).1
  = (Depends SECRET_KEY credentials now get_me d2).1.
Proof.
  destruct Hdiff as (Hu & _).
  unfold Depends, get_current_user, get_me. run_handler.
  destruct (jwt_decode credentials SECRET_KEY now) as [e|claims]; simpl;
    [by destruct e|].
  destruct (claims !! "sub") as [user_id|]; simpl; [|done].
  destruct (find_one_same_public
              (λ u, bool_decide (VStr (User.id u) = user_id))
              (users d1) (users d2)) as [u v Huv|]; simpl; [| done | |done].
  - by intros u v (-> & _).
  - by rewrite (user_object_same_public u v Huv).
Qed.

Lemma get_user_profile_same username :
  (get_user_profile username d1).1 = (get_user_profile username d2).1.
Proof.
  destruct Hdiff as (Hu & Ha & _).
  unfold get_user_profile. run_handler.
  destruct (find_one_same_public
              (λ u, bool_decide (User.username u = username))
              (users d1) (users d2)) as [u v Huv|]; simpl; [| done | |done].
  - by intros u v (_ & -> & _).
  - by rewrite (document_projection_same_public u v Huv), Ha.
Qed.

Lemma register_same user_data uuid created salt issued :
  (register SECRET_KEY user_data uuid created salt issued d1).1
  = (register SECRET_KEY user_data uuid created salt issued d2).1.
Proof.
  destruct Hdiff as (Hu & _).
  unfold register. run_handler.
  destruct (find_one_same_public
    (λ u, bool_decide (User.email u = reg_email user_data)
          || bool_decide (User.username u = reg_username user_data))
    (users d1) (users d2)) as [u v Huv|]; simpl; [| done | done | done].
  by intros u v (_ & -> & -> & _).
Qed.

Lemma login_same credentials issued r1 r2 :
  (login SECRET_KEY credentials issued d1).1 = Returned r1 →
  (login SECRET_KEY credentials issued d2).1 = Returned r2 →
  r1 = r2.
Proof.
  destruct Hdiff as (Hu & _).
  unfold login. run_handler.
  destruct (find_one_same_public
    (λ u, bool_decide (User.email u = login_email credentials))
    (users d1) (users d2)) as [u v Huv|]; simpl; [| done | |done].
  - by intros u v (_ & _ & -> & _).
  - destruct (verify_password _ (User.password_hash u)); simpl; [|done].
    destruct (verify_password _ (User.password_hash v)); simpl; [|done].
    intros [= <-] [= <-].
    rewrite (user_object_same_public u v Huv).
    by destruct Huv as (-> & _).
Qed.

Lemma get_me_no_hash credentials now m :
  (Depends SECRET_KEY credentials now get_me d1).1 = Returned m →
  m !! "password_hash" = None.
Proof.
  unfold Depends, get_current_user, get_me. run_handler.
  destruct (jwt_decode credentials SECRET_KEY now) as [e|claims]; simpl;
    [by destruct e|].
  destruct (claims !! "sub") as [user_id|]; simpl; [|done].
  destruct (find_one _ (users d1)); simpl; [|done].
  intros [= <-]. apply user_object_no_hash.
Qed.

Lemma get_user_profile_no_hash username r :
  (get_user_profile username d1).1 = Returned r →
  profile_user r !! "password_hash" = None.
Proof.
  unfold get_user_profile. run_handler.
  destruct (find_one _ (users d1)); simpl; [|done].
  intros [= <-]. simpl. apply lookup_delete_eq.
Qed.

Lemma register_no_hash user_data uuid created salt issued r :
  (register SECRET_KEY user_data uuid created salt issued d1).1 = Returned r →
  auth_user r !! "password_hash" = None.
Proof.
  unfold register. run_handler.
  destruct (find_one _ (users d1)); simpl; [done|].
  intros [= <-]. apply user_object_no_hash.
Qed.

Lemma login_no_hash credentials issued r :
  (login SECRET_KEY credentials issued d1).1 = Returned r →
  auth_user r !! "password_hash" = None.
Proof.
  unfold login. run_handler.
  destruct (find_one _ (users d1)) as [u|]; simpl; [|done].
  destruct (verify_password _ _); simpl; [|done].
  intros [= <-]. apply user_object_no_hash.
Qed.

End Exposure.

(** C7.  For two databases that differ only in stored password hashes,
    [get_me], [get_user_profile] and [register] answer alike, and the
    responses of two successful [login] calls are equal; the user
    dictionary of each of these responses has no [password_hash] key. *)
Theorem password_hash_not_exposed `{CryptContext} `{JWT}
    (SECRET_KEY : string) d1 d2 :
  differ_only_in_hashes d1 d2 →
  (∀ credentials now,
     (Depends SECRET_KEY credentials now get_me d1).1
     = (Depends SECRET_KEY credentials now get_me d2).1)
  ∧ (∀ username,
     (get_user_profile username d1).1 = (get_user_profile username d2).1)
  ∧ (∀ user_data uuid created salt issued,
     (register SECRET_KEY user_data uuid created salt issued d1).1
     = (register SECRET_KEY user_data uuid created salt issued d2).1)
  ∧ (∀ credentials issued r1 r2,
     (login SECRET_KEY credentials issued d1).1 = Returned r1 →
     (login SECRET_KEY credentials issued d2).1 = Returned r2 →
     r1 = r2)
  ∧ (∀ credentials now m,
     (Depends SECRET_KEY credentials now get_me d1).1 = Returned m →
     m !! "password_hash" = None)
  ∧ (∀ username r,
     (get_user_profile username d1).1 = Returned r →
     profile_user r !! "password_hash" = None)
  ∧ (∀ user_data uuid created salt issued r,
     (register SECRET_KEY user_data uuid created salt issued d1).1
       = Returned r →
     auth_user r !! "password_hash" = None)
  ∧ (∀ credentials issued r,
     (login SECRET_KEY credentials issued d1).1 = Returned r →
     auth_user r !! "password_hash" = None).
Proof.
  intros Hdiff. repeat split.
  - intros. by apply get_me_same.
  - intros. by apply get_user_profile_same.
  - intros. by apply register_same.
  - intros. by eapply login_same.
  - intros. by eapply get_me_no_hash.
  - intros. by eapply get_user_profile_no_hash.
  - intros. by eapply register_no_hash.
  - intros. by eapply login_no_hash.
Qed.

Lemma password_hash_not_exposed_witness :
  differ_only_in_hashes sample_db rehashed_db
  ∧ (get_user_profile "alice" sample_db).1
    = (get_user_profile "alice" rehashed_db).1.
Proof.
  assert (Hdiff : differ_only_in_hashes sample_db rehashed_db).
  { split; [|done]. repeat constructor. }
  split; [exact Hdiff|].
  apply (@password_hash_not_exposed model_crypt model_jwt "k"
           sample_db rehashed_db Hdiff).
Defined.

(** ** The counters count the records (C6) *)

Section References.
Context {A : Type} (key : A → string).
Implicit Types (l : list A) (i j : string).

Lemma references_insert_one i x l :
  references key i (insert_one x l)
  = (references key i l + if bool_decide (key x = i) then 1 else 0)%nat.
Proof.
  unfold references, find, insert_one.
  rewrite List.filter_app, length_app. simpl.
  by destruct (bool_decide (key x = i)).
Qed.

Lemma references_delete_many_ne i j l :
  i ≠ j →
  references key j (delete_many (λ x, bool_decide (key x = i)) l)
  = references key j l.
Proof.
  intros Hij. unfold references, find, delete_many.
  induction l as [|x l IH]; simpl; [done|].
  destruct (bool_decide_reflect (key x = i)) as [Hi|Hi]; simpl.
  - rewrite bool_decide_eq_false_2 by congruence. done.
  - destruct (bool_decide (key x = j)); simpl; by rewrite IH.
Qed.

Lemma references_delete_one (q : A → bool) i l x :
  find_one q l = Some x →
  references key i l
  = (references key i (delete_one q l).2
     + if bool_decide (key x = i) then 1 else 0)%nat.
Proof.
  unfold references, find.
  induction l as [|y l IH]; simpl; [done|].
  destruct (q y) eqn:Hq.
  - intros [= ->]. simpl. destruct (bool_decide (key x = i)); simpl; lia.
  - intros Hf. specialize (IH Hf).
    destruct (delete_one q l) as [n l']. simpl in *.
    destruct (bool_decide (key y = i)); simpl; lia.
Qed.

Lemma references_none i l :
  (∀ x, x ∈ l → key x ≠ i) → references key i l = 0%nat.
Proof.
  unfold references, find. induction l as [|x l IH]; simpl; [done|].
  intros Hall. rewrite bool_decide_eq_false_2.
  - apply IH. intros y Hy. apply Hall. by right.
  - apply Hall. left.
Qed.

Lemma elem_of_delete_one (q : A → bool) l x :
  x ∈ (delete_one q l).2 → x ∈ l.
Proof.
  induction l as [|y l IH]; simpl; [done|].
  destruct (q y).
  - simpl. by right.
  - destruct (delete_one q l) as [n l']. simpl in *.
    intros [->|Hx]%elem_of_cons; [left | right; auto].
Qed.
End References.

Section ArticleStore.
Implicit Types (l : list Article.t) (i : string) (f : Article.t → Article.t).

Lemma ids_update_one (q : Article.t → bool) f l :
  (∀ a, Article.id (f a) = Article.id a) →
  Article.id <$> update_one q f l = Article.id <$> l.
Proof.
  intros Hf. induction l as [|x l IH]; [done|]. cbn [update_one].
  destruct (q x); rewrite !fmap_cons; [by rewrite Hf | by rewrite IH].
Qed.

(** With distinct ids, [update_one] by id touches the one article of
    that id. *)
Lemma elem_of_update_one i f l b :
  NoDup (Article.id <$> l) →
  b ∈ update_one (by_id i) f l →
  (b ∈ l ∧ Article.id b ≠ i) ∨ (∃ a, a ∈ l ∧ Article.id a = i ∧ b = f a).
Proof.
  induction l as [|x l IH]; simpl; [by intros _ ?%elem_of_nil|].
  intros [Hx Hnd]%NoDup_cons. unfold by_id at 1.
  destruct (bool_decide_reflect (Article.id x = i)) as [Hi|Hi].
  - intros [->|Hb]%elem_of_cons.
    + right. exists x. split; [left | done].
    + left. split; [by right|]. intros Hbi. apply Hx. rewrite Hi, <- Hbi.
      by apply list_elem_of_fmap_2.
  - intros [->|Hb]%elem_of_cons.
    + left. split; [left | done].
    + destruct (IH Hnd Hb) as [[? ?]|(a & ? & ? & ?)].
      * left. split; [by right | done].
      * right. exists a. split; [by right | done].
Qed.

Lemma elem_of_delete_one_by_id i l b :
  NoDup (Article.id <$> l) →
  b ∈ (delete_one (by_id i) l).2 → b ∈ l ∧ Article.id b ≠ i.
Proof.
  induction l as [|x l IH]; simpl; [by intros _ ?%elem_of_nil|].
  intros [Hx Hnd]%NoDup_cons. unfold by_id at 1.
  destruct (bool_decide_reflect (Article.id x = i)) as [Hi|Hi]; simpl.
  - intros Hb. split; [by right|]. intros Hbi. apply Hx.
    rewrite Hi, <- Hbi. by apply list_elem_of_fmap_2.
  - specialize (IH Hnd). destruct (delete_one (by_id i) l) as [n l'].
    simpl in *. intros [->|Hb]%elem_of_cons.
    + split; [left | done].
    + destruct (IH Hb). split; [by right | done].
Qed.

Lemma elem_of_delete_one_other i l b :
  b ∈ l → Article.id b ≠ i → b ∈ (delete_one (by_id i) l).2.
Proof.
  induction l as [|x l IH]; simpl; [done|].
  intros Hb Hbi. unfold by_id at 1.
  destruct (bool_decide_reflect (Article.id x = i)) as [Hi|Hi]; simpl.
  - apply elem_of_cons in Hb as [->|Hb]; [done | done].
  - specialize (IH). destruct (delete_one (by_id i) l) as [n l'].
    simpl in *. apply elem_of_cons in Hb as [->|Hb]; [left | right; auto].
Qed.

Lemma NoDup_ids_delete_one (q : Article.t → bool) l :
  NoDup (Article.id <$> l) →
  NoDup (Article.id <$> (delete_one q l).2).
Proof.
  induction l as [|x l IH]; simpl; [done|].
  intros [Hx Hnd]%NoDup_cons. destruct (q x); simpl; [done|].
  specialize (IH Hnd).
  pose proof (elem_of_delete_one (A := Article.t) q l) as Hsub.
  destruct (delete_one q l) as [n l']. simpl in *.
  apply NoDup_cons. split; [|done].
  intros (b & Hb & Hin)%list_elem_of_fmap. apply Hx. rewrite Hb.
  apply list_elem_of_fmap_2. auto.
Qed.

Lemma id_in_store i l a :
  find_one (by_id i) l = Some a → i ∈ Article.id <$> l.
Proof.
  intros [Hin Hq]%find_one_Some. apply bool_decide_eq_true in Hq.
  rewrite <- Hq. by apply list_elem_of_fmap_2.
Qed.

(** For distinct ids the stored article of an id is the one
    [find_one] yields. *)
Lemma find_one_by_id_unique l a :
  NoDup (Article.id <$> l) → a ∈ l →
  find_one (by_id (Article.id a)) l = Some a.
Proof.
  induction l as [|x l IH]; simpl; [by intros _ ?%elem_of_nil|].
  intros [Hx Hnd]%NoDup_cons [->|Ha]%elem_of_cons.
  - unfold by_id. by rewrite bool_decide_eq_true_2.
  - unfold by_id at 1. rewrite bool_decide_eq_false_2; [auto|].
    intros Heq. apply Hx. rewrite Heq. by apply list_elem_of_fmap_2.
Qed.
End ArticleStore.

(** One article is rewritten by id, its counters move by [dl] and [dc],
    and the numbers of likes and comments of that id move alike. *)
Lemma invariant_update_one d us i f cs ls (dl dc : Z) :
  invariant d →
  (∀ a, Article.id (f a) = Article.id a) →
  (∀ a, Article.likes_count (f a) = Article.likes_count a + dl
        ∧ Article.comments_count (f a) = Article.comments_count a + dc) →
  (∀ j, Z.of_nat (references Like.article_id j ls)
        = Z.of_nat (references Like.article_id j (likes d))
          + if bool_decide (j = i) then dl else 0) →
  (∀ j, Z.of_nat (references Comment.article_id j cs)
        = Z.of_nat (references Comment.article_id j (comments d))
          + if bool_decide (j = i) then dc else 0) →
  (∀ l, l ∈ ls → Like.article_id l ∈ Article.id <$> articles d) →
  (∀ c, c ∈ cs → Comment.article_id c ∈ Article.id <$> articles d) →
  invariant (mkDB us (update_one (by_id i) f (articles d)) cs ls).
Proof.
  intros [(Hnd & Hl & Hc) Hcount] Hid Hf Hls Hcs Hlref Hcref.
  split; [split; [|split]|]; simpl.
  - by rewrite ids_update_one.
  - intros l Hin. rewrite ids_update_one by done. auto.
  - intros c Hin. rewrite ids_update_one by done. auto.
  - intros b Hb. simpl in *.
    apply elem_of_update_one in Hb as [[Hb Hbi]|(a & Ha & Hai & ->)];
      [| |done].
    + destruct (Hcount b Hb) as [-> ->].
      rewrite Hls, Hcs. rewrite !bool_decide_eq_false_2 by done. lia.
    + destruct (Hcount a Ha) as [Hla Hca]. destruct (Hf a) as [-> ->].
      rewrite Hid, Hls, Hcs, Hla, Hca.
      rewrite !bool_decide_eq_true_2 by done. done.
Qed.

Lemma invariant_empty : invariant empty_db.
Proof.
  split; [split; [|split]|]; simpl.
  - constructor.
  - by intros l ?%elem_of_nil.
  - by intros c ?%elem_of_nil.
  - by intros a ?%elem_of_nil.
Qed.

Lemma same_references {A} (key : A → string) (l : list A) i j :
  Z.of_nat (references key j l) = Z.of_nat (references key j l)
                                  + if bool_decide (j = i) then 0 else 0.
Proof. destruct (bool_decide (j = i)); lia. Qed.

Lemma invariant_like d article_id current_user uuid now :
  invariant d → invariant (like_article article_id current_user uuid now d).2.
Proof.
  intros Hinv.
  destruct (find_one (by_id article_id) (articles d)) as [a|] eqn:Ha.
  2: { unfold like_article. run_handler. by rewrite Ha. }
  destruct (find_one (like_of article_id (User.id current_user)) (likes d))
    as [l|] eqn:Hl.
  { by rewrite (like_article_existing _ _ _ _ _ _ _ Ha Hl). }
  rewrite (like_article_new _ _ _ _ _ _ Ha Hl). simpl.
  apply (invariant_update_one d _ article_id _ _ _ 1 0); try done.
  - intros b. simpl. split; [done | lia].
  - intros j. rewrite references_insert_one. simpl.
    rewrite (bool_decide_ext (article_id = j) (j = article_id)) by done.
    destruct (bool_decide (j = article_id)); lia.
  - apply same_references.
  - intros l [Hin| ->%list_elem_of_singleton]%elem_of_app.
    + by apply Hinv.
    + simpl. by eapply id_in_store.
  - apply Hinv.
Qed.

Lemma like_of_article_id article_id user_id l :
  like_of article_id user_id l = true → Like.article_id l = article_id.
Proof.
  unfold like_of. intros [H1 _]%andb_true_iff.
  by apply bool_decide_eq_true in H1.
Qed.

Lemma invariant_unlike d article_id current_user :
  invariant d → invariant (unlike_article article_id current_user d).2.
Proof.
  intros Hinv.
  destruct (find_one (like_of article_id (User.id current_user)) (likes d))
    as [l|] eqn:Hl.
  2: { by rewrite (unlike_article_missing _ _ _ Hl). }
  rewrite (unlike_article_present _ _ _ _ Hl). simpl.
  apply (invariant_update_one d _ article_id _ _ _ (-1) 0); try done.
  - intros b. simpl. split; [done | lia].
  - intros j.
    rewrite (references_delete_one Like.article_id _ j _ _ Hl).
    apply find_one_Some in Hl as [_ Hq%like_of_article_id]. rewrite Hq.
    rewrite (bool_decide_ext (article_id = j) (j = article_id)) by done.
    destruct (bool_decide (j = article_id)); lia.
  - apply same_references.
  - intros x Hx%elem_of_delete_one. by apply Hinv.
  - apply Hinv.
Qed.

Lemma create_comment_found d article_id comment_data current_user uuid now a :
  find_one (by_id article_id) (articles d) = Some a →
  create_comment article_id comment_data current_user uuid now d
  = (Returned (new_comment article_id comment_data current_user uuid now),
     mkDB (users d)
       (update_one (by_id article_id) (inc_comments_count 1) (articles d))
       (insert_one
          (new_comment article_id comment_data current_user uuid now)
          (comments d))
       (likes d)).
Proof. intros Ha. unfold create_comment. run_handler. by rewrite Ha. Qed.

Lemma invariant_create_comment d article_id comment_data current_user
    uuid now :
  invariant d →
  invariant
    (create_comment article_id comment_data current_user uuid now d).2.
Proof.
  intros Hinv.
  destruct (find_one (by_id article_id) (articles d)) as [a|] eqn:Ha.
  2: { unfold create_comment. run_handler. by rewrite Ha. }
  rewrite (create_comment_found _ _ _ _ _ _ _ Ha). simpl.
  apply (invariant_update_one d _ article_id _ _ _ 0 1); try done.
  - intros b. simpl. split; [lia | done].
  - apply same_references.
  - intros j. rewrite references_insert_one. simpl.
    rewrite (bool_decide_ext (article_id = j) (j = article_id)) by done.
    destruct (bool_decide (j = article_id)); lia.
  - apply Hinv.
  - intros c [Hin| ->%list_elem_of_singleton]%elem_of_app.
    + by apply Hinv.
    + simpl. by eapply id_in_store.
Qed.

Lemma invariant_update_article d article_id article_data current_user now :
  invariant d →
  invariant (update_article article_id article_data current_user now d).2.
Proof.
  intros Hinv.
  destruct (find_one (by_id article_id) (articles d)) as [a|] eqn:Ha.
  2: { unfold update_article. run_handler. by rewrite Ha. }
  destruct (decide (Article.author_id a = User.id current_user)) as [Heq|Hne].
  2: { by rewrite (update_article_forbidden _ _ _ _ _ _ Ha Hne). }
  rewrite (update_article_author _ _ _ _ _ _ Ha Heq). simpl.
  apply (invariant_update_one d _ article_id _ _ _ 0 0); try done.
  - intros b. simpl. lia.
  - apply same_references.
  - apply same_references.
  - apply Hinv.
  - apply Hinv.
Qed.

Lemma invariant_create_article d article_data current_user uuid
    created updated :
  invariant d →
  uuid ∉ Article.id <$> articles d →
  invariant
    (create_article article_data current_user uuid created updated d).2.
Proof.
  intros [(Hnd & Hl & Hc) Hcount] Hfresh.
  unfold create_article. run_handler. unfold insert_one.
  split; [split; [|split]|]; simpl.
  - rewrite fmap_app. apply NoDup_app. split; [done|]. split.
    + intros j Hj [->|[]%elem_of_nil]%elem_of_cons. done.
    + apply NoDup_singleton.
  - intros l Hin. rewrite fmap_app. apply elem_of_app. left. auto.
  - intros c Hin. rewrite fmap_app. apply elem_of_app. left. auto.
  - intros b [Hb| ->%list_elem_of_singleton]%elem_of_app; [auto|]. simpl.
    rewrite !references_none; [done | |].
    + intros c Hin Heq. apply Hfresh. rewrite <- Heq. auto.
    + intros l Hin Heq. apply Hfresh. rewrite <- Heq. auto.
Qed.

Lemma invariant_delete_article d article_id current_user :
  invariant d → invariant (delete_article article_id current_user d).2.
Proof.
  intros Hinv.
  destruct (find_one (by_id article_id) (articles d)) as [a|] eqn:Ha.
  2: { unfold delete_article. run_handler. by rewrite Ha. }
  destruct (decide (Article.author_id a = User.id current_user)) as [Heq|Hne].
  2: { by rewrite (delete_article_forbidden _ _ _ _ Ha Hne). }
  rewrite (delete_article_author _ _ _ _ Ha Heq).
  destruct Hinv as [(Hnd & Hl & Hc) Hcount].
  assert (Hkeep : ∀ j, j ∈ Article.id <$> articles d → j ≠ article_id →
            j ∈ Article.id <$> (delete_one (by_id article_id) (articles d)).2).
  { intros j (b & -> & Hb)%list_elem_of_fmap Hj.
    apply list_elem_of_fmap_2. by apply elem_of_delete_one_other. }
  unfold invariant, well_formed, counters_consistent.
  cbn [snd]. cbn [articles likes comments].
  split; [split; [|split]|].
  - by apply NoDup_ids_delete_one.
  - intros l [Hin Hq]%elem_of_delete_many.
    apply bool_decide_eq_false in Hq. auto.
  - intros c [Hin Hq]%elem_of_delete_many.
    apply bool_decide_eq_false in Hq. auto.
  - intros b [Hb Hbi]%elem_of_delete_one_by_id; [|done].
    rewrite (references_delete_many_ne Like.article_id),
      (references_delete_many_ne Comment.article_id) by done.
    auto.
Qed.

Lemma invariant_run o d : invariant d → fresh_id o d → invariant (run o d).
Proof.
  intros Hinv Hfresh. destruct o; simpl in *.
  - by apply invariant_like.
  - by apply invariant_unlike.
  - by apply invariant_create_comment.
  - by apply invariant_create_article.
  - by apply invariant_update_article.
  - by apply invariant_delete_article.
Qed.

Lemma reachable_invariant d : reachable d → invariant d.
Proof.
  induction 1 as [|d o _ IH Hfresh];
    [apply invariant_empty | by apply invariant_run].
Qed.

(** C6.  In every state that a sequence of like, unlike, comment
    creation and article creation, update and deletion reaches from the
    empty database, each stored article's [likes_count] is the number of
    like records of its id and its [comments_count] the number of
    comment records of its id. *)
Theorem counters_count_records d :
  reachable d →
  ∀ a, a ∈ articles d →
    Article.likes_count a
      = Z.of_nat (length (find (λ l, bool_decide
                                       (Like.article_id l = Article.id a))
                            (likes d)))
    ∧ Article.comments_count a
      = Z.of_nat (length (find (λ c, bool_decide
                                       (Comment.article_id c = Article.id a))
                            (comments d))).
Proof. intros Hreach. by apply reachable_invariant. Qed.

Lemma counters_count_records_witness :
  reachable sample_run
  ∧ ∀ a, a ∈ articles sample_run →
      Article.likes_count a
        = Z.of_nat (length (find (λ l, bool_decide
                                         (Like.article_id l = Article.id a))
                              (likes sample_run)))
      ∧ Article.comments_count a
        = Z.of_nat (length (find (λ c, bool_decide
                                         (Comment.article_id c = Article.id a))
                              (comments sample_run))).
Proof.
  assert (Hreach : reachable sample_run).
  { unfold sample_run. repeat apply reachable_step;
      [apply reachable_empty | | exact I | exact I | exact I].
    simpl. apply not_elem_of_nil. }
  split; [exact Hreach|].
  exact (counters_count_records sample_run Hreach).
Defined.

Example sample_run_counters :
  (λ a, (Article.likes_count a, Article.comments_count a))
    <$> articles sample_run = [(2, 1)]
  ∧ length (likes sample_run) = 2%nat
  ∧ length (comments sample_run) = 1%nat.
Proof. by vm_compute. Qed.

(** * Further properties of the handlers *)

(** ** More facts on collections *)

Section MoreCollectionFacts.
Context {A : Type}.
Implicit Types (q : A → bool) (l : list A).

Lemma find_one_app q l k :
  find_one q (l ++ k)
  = match find_one q l with
    | Some x => Some x
    | None => find_one q k
    end.
Proof.
  induction l as [|y l IH]; simpl; [done|]. by destruct (q y).
Qed.

Lemma delete_one_sublist q l : (delete_one q l).2 `sublist_of` l.
Proof.
  induction l as [|y l IH]; simpl; [done|].
  destruct (q y); simpl.
  - by apply sublist_cons.
  - destruct (delete_one q l) as [n l']. simpl in *. by apply sublist_skip.
Qed.

Lemma delete_many_sublist q l : delete_many q l `sublist_of` l.
Proof.
  unfold delete_many. induction l as [|y l IH]; simpl; [done|].
  destruct (q y); simpl; [by apply sublist_cons | by apply sublist_skip].
Qed.

Lemma elem_of_delete_one_keep q l x :
  x ∈ l → q x = false → x ∈ (delete_one q l).2.
Proof.
  induction l as [|y l IH]; simpl; [done|].
  intros Hx Hq. destruct (q y) eqn:Hy; simpl.
  - apply elem_of_cons in Hx as [->|Hx]; [congruence | done].
  - destruct (delete_one q l) as [n l']. simpl in *.
    apply elem_of_cons in Hx as [->|Hx]; [left | right; auto].
Qed.

Lemma update_one_update_one q (f g : A → A) l :
  (∀ x, q x = true → q (f x) = true) →
  update_one q g (update_one q f l) = update_one q (λ x, g (f x)) l.
Proof.
  intros Hq. induction l as [|y l IH]; simpl; [done|].
  destruct (q y) eqn:Hy; simpl.
  - by rewrite (Hq y Hy).
  - by rewrite Hy, IH.
Qed.

Lemma update_one_id q (f : A → A) l :
  (∀ x, f x = x) → update_one q f l = l.
Proof.
  intros Hf. induction l as [|y l IH]; simpl; [done|].
  destruct (q y); by rewrite ?Hf, ?IH.
Qed.
End MoreCollectionFacts.

(** ** Articles that are not in the store *)

(** X1.  For an id under which the store holds no article,
    [get_article], [update_article], [delete_article], [like_article]
    and [create_comment] all raise 404 "Article not found", whoever the
    actor is, and leave the database as it was. *)
Theorem missing_article_not_found d article_id current_user
    article_data comment_data uuid now :
  find_one (by_id article_id) (articles d) = None →
  get_article article_id d = (Raised ArticleNotFound, d)
  ∧ update_article article_id article_data current_user now d
    = (Raised ArticleNotFound, d)
  ∧ delete_article article_id current_user d = (Raised ArticleNotFound, d)
  ∧ like_article article_id current_user uuid now d
    = (Raised ArticleNotFound, d)
  ∧ create_comment article_id comment_data current_user uuid now d
    = (Raised ArticleNotFound, d).
Proof.
  intros Hnone.
  unfold get_article, update_article, delete_article, like_article,
    create_comment.
  run_handler. by rewrite Hnone.
Qed.

Lemma missing_article_not_found_witness :
  find_one (by_id "a9") (articles sample_db) = None
  ∧ like_article "a9" bob "l9" 500 sample_db
    = (Raised ArticleNotFound, sample_db).
Proof.
  split; [reflexivity|].
  apply (missing_article_not_found sample_db "a9" bob retitle
           {| comment_content := "x" |} "l9" 500 eq_refl).
Defined.

(** ** The authentication gate *)

Section Gate.
Context `{JWT}.
Variable SECRET_KEY : string.

Lemma get_current_user_cases d credentials now :
  (∃ user, get_current_user SECRET_KEY credentials now d = (Returned user, d)
           ∧ user ∈ users d)
  ∨ get_current_user SECRET_KEY credentials now d = (Raised TokenExpired, d)
  ∨ get_current_user SECRET_KEY credentials now d
    = (Raised AttributeError, d).
Proof.
  destruct (jwt_decode credentials SECRET_KEY now) as [e|claims] eqn:Hdec.
  - right. rewrite (get_current_user_jwt_error _ _ _ _ _ Hdec).
    destruct e; [by left | by right | by right].
  - rewrite (get_current_user_decoded _ _ _ _ _ Hdec).
    destruct (claims !! "sub") as [user_id|]; [|by right; right].
    destruct (find_one _ (users d)) as [user|] eqn:Hfind;
      [|by right; right].
    left. exists user. split; [done|]. by apply find_one_Some in Hfind as [? _].
Qed.

(** X2.  Whatever the credentials, an endpoint behind
    [Depends(get_current_user)] either runs on a user document of the
    store, or does not run at all: the request then ends in 401 "Token
    expired" or in [AttributeError], and the database is unchanged. *)
Theorem depends_gate {A} (endpoint : User.t → Handler A) d credentials now :
  (∃ user, user ∈ users d
           ∧ Depends SECRET_KEY credentials now endpoint d = endpoint user d)
  ∨ Depends SECRET_KEY credentials now endpoint d = (Raised TokenExpired, d)
  ∨ Depends SECRET_KEY credentials now endpoint d
    = (Raised AttributeError, d).
Proof.
  unfold Depends. run_handler.
  destruct (get_current_user_cases d credentials now)
    as [(user & -> & Hin)|[-> | ->]].
  - left. by exists user.
  - right. by left.
  - right. by right.
Qed.

(** X3.  A token that is still valid but whose subject is no longer a
    user of the store is refused, yet not with the 401 "User not found"
    that the body raises: [except jwt.JWTError] turns it into
    [AttributeError].  The database is unchanged. *)
Theorem token_of_removed_user d (U : string) issued now :
  U ∉ User.id <$> users d →
  now < embedded_expiry (issued + timedelta 30) →
  get_current_user SECRET_KEY
    (create_access_token SECRET_KEY {["sub" := VStr U]} issued) now d
  = (Raised AttributeError, d).
Proof.
  intros HU Hlive. rewrite create_access_token_payload.
  destruct (jwt_decode_live
              (<["exp" := VDate (issued + timedelta 30)]> {["sub" := VStr U]})
              SECRET_KEY (issued + timedelta 30) now)
    as (claims & Hdec & Hsub); [by rewrite lookup_insert_eq | done |].
  rewrite (get_current_user_decoded _ _ _ _ _ Hdec), Hsub.
  rewrite lookup_insert_ne by done. rewrite lookup_singleton_eq.
  destruct (find_one _ (users d)) as [user|] eqn:Hfind; [|done].
  apply find_one_Some in Hfind as [Hin Hq].
  apply bool_decide_eq_true in Hq. injection Hq as Hq.
  exfalso. apply HU. rewrite <- Hq. by apply list_elem_of_fmap_2.
Qed.

End Gate.

Lemma token_of_removed_user_witness :
  ("u7" ∉ User.id <$> users sample_db)
  ∧ 2000 < embedded_expiry (1000 + timedelta 30)
  ∧ @get_current_user model_jwt "k"
      (@create_access_token model_jwt "k" {["sub" := VStr "u7"]} 1000)
      2000 sample_db
    = (Raised AttributeError, sample_db).
Proof.
  assert (Hout : "u7" ∉ User.id <$> users sample_db)
    by (apply (bool_decide_unpack _); vm_compute; exact I).
  assert (Hlive : 2000 < embedded_expiry (1000 + timedelta 30))
    by (vm_compute; reflexivity).
  split; [exact Hout|]. split; [exact Hlive|].
  exact (@token_of_removed_user model_jwt "k" sample_db "u7" 1000 2000
           Hout Hlive).
Defined.

(** ** Login *)

Section Login.
Context `{CryptContext} `{JWT}.
Variable SECRET_KEY : string.

Lemma login_no_user d credentials issued :
  find_one (by_email (login_email credentials)) (users d) = None →
  login SECRET_KEY credentials issued d = (Raised InvalidCredentials, d).
Proof.
  unfold by_email. intros Hnone. unfold login. run_handler. by rewrite Hnone.
Qed.

Lemma login_bad_password d credentials issued u :
  find_one (by_email (login_email credentials)) (users d) = Some u →
  verify_password (login_password credentials) (User.password_hash u)
  = false →
  login SECRET_KEY credentials issued d = (Raised InvalidCredentials, d).
Proof.
  unfold by_email. intros Hu Hv. unfold login. run_handler.
  by rewrite Hu, Hv.
Qed.

Lemma login_accepted d credentials issued u :
  find_one (by_email (login_email credentials)) (users d) = Some u →
  verify_password (login_password credentials) (User.password_hash u)
  = true →
  login SECRET_KEY credentials issued d
  = (Returned
       {| auth_token :=
            create_access_token SECRET_KEY {["sub" := VStr (User.id u)]}
              issued;
          auth_user :=
            user_object (User.id u) (User.username u) (User.email u)
              (User.bio u) (User.avatar u) |}, d).
Proof.
  unfold by_email. intros Hu Hv. unfold login. run_handler.
  by rewrite Hu, Hv.
Qed.

(** X4.  [login] answers an email that no stored user has and a
    password that does not verify against the stored hash with the same
    401 "Invalid credentials", and writes nothing in either case. *)
Theorem login_rejections d credentials issued :
  ((∀ u, u ∈ users d → User.email u ≠ login_email credentials) →
   login SECRET_KEY credentials issued d = (Raised InvalidCredentials, d))
  ∧ (∀ u,
       find_one (by_email (login_email credentials)) (users d) = Some u →
       verify_password (login_password credentials) (User.password_hash u)
       = false →
       login SECRET_KEY credentials issued d = (Raised InvalidCredentials, d)).
Proof.
  split.
  - intros Hall. apply login_no_user. apply find_one_None.
    intros u Hu. unfold by_email. apply bool_decide_eq_false_2. auto.
  - intros u. apply login_bad_password.
Qed.

(** X5.  When the password verifies, [login] returns the public fields
    of the user found under the email and a token that resolves through
    [get_current_user], at any time before its expiry 30 days after the
    issue, to a user of the same id; the database is unchanged. *)
Theorem login_token_resolves d credentials issued u :
  find_one (by_email (login_email credentials)) (users d) = Some u →
  verify_password (login_password credentials) (User.password_hash u)
  = true →
  ∃ response,
    login SECRET_KEY credentials issued d = (Returned response, d)
    ∧ auth_user response
      = user_object (User.id u) (User.username u) (User.email u)
          (User.bio u) (User.avatar u)
    ∧ ∀ now, now < embedded_expiry (issued + timedelta 30) →
        ∃ user,
          get_current_user SECRET_KEY (auth_token response) now d
          = (Returned user, d)
          ∧ User.id user = User.id u.
Proof.
  intros Hu Hv. eexists. split; [by apply login_accepted|].
  split; [done|]. intros now Hlive. simpl.
  assert (Hin : User.id u ∈ User.id <$> users d).
  { apply list_elem_of_fmap_2. by apply find_one_Some in Hu as [? _]. }
  destruct (token_resolves SECRET_KEY d (User.id u) issued now Hin Hlive)
    as (user & ? & ? & _).
  eauto.
Qed.

(** X6.  If the password context verifies every password against its
    own hash, then after a successful [register] a [login] with the same
    email and password is accepted and returns the user object of the
    new user. *)
Theorem register_then_login d user_data uuid created salt issued issued' :
  (∀ s p, pwd_context_verify p (pwd_context_hash s p) = true) →
  (∀ u, u ∈ users d →
        User.email u ≠ reg_email user_data
        ∧ User.username u ≠ reg_username user_data) →
  ∃ d' response,
    (register SECRET_KEY user_data uuid created salt issued d).2 = d'
    ∧ login SECRET_KEY
        {| login_email := reg_email user_data;
           login_password := reg_password user_data |} issued' d'
      = (Returned response, d')
    ∧ auth_user response
      = user_object uuid (reg_username user_data) (reg_email user_data)
          EmptyString EmptyString.
Proof.
  intros Hlaw Hfresh. rewrite register_unique by done.
  eexists. eexists. split; [reflexivity|].
  assert (Hfind : find_one (by_email (reg_email user_data))
            (users (set_users
               (insert_one (registered_user user_data uuid created salt)) d))
          = Some (registered_user user_data uuid created salt)).
  { simpl. unfold insert_one. rewrite find_one_app.
    assert (find_one (by_email (reg_email user_data)) (users d) = None) as ->.
    { apply find_one_None. intros u [He _]%Hfresh.
      unfold by_email. by apply bool_decide_eq_false_2. }
    simpl. unfold by_email. simpl. by rewrite bool_decide_eq_true_2. }
  split.
  - apply (login_accepted _
             {| login_email := reg_email user_data;
                login_password := reg_password user_data |} issued' _ Hfind).
    simpl. apply Hlaw.
  - done.
Qed.

(** X7.  [register] keeps emails and usernames pairwise distinct: if no
    two stored users share an email or a username before the call, none
    do after it, whether it returned or raised. *)
Theorem register_keeps_users_unique d user_data uuid created salt issued :
  users_unique d →
  users_unique (register SECRET_KEY user_data uuid created salt issued d).2.
Proof.
  intros [He Hn].
  destruct (find_one
    (λ u, bool_decide (User.email u = reg_email user_data)
          || bool_decide (User.username u = reg_username user_data))
    (users d)) as [u|] eqn:Hfind.
  - apply find_one_Some in Hfind as [Hu Hq].
    apply orb_true_iff in Hq.
    rewrite (register_conflict SECRET_KEY d user_data uuid created salt
               issued u Hu); [done|].
    destruct Hq as [Hq|Hq]; apply bool_decide_eq_true in Hq; auto.
  - assert (Hfresh : ∀ u, u ∈ users d →
              User.email u ≠ reg_email user_data
              ∧ User.username u ≠ reg_username user_data).
    { intros u Hu. rewrite find_one_None in Hfind.
      specialize (Hfind u Hu). apply orb_false_iff in Hfind as [H1 H2].
      by apply bool_decide_eq_false in H1, H2. }
    rewrite register_unique by done. unfold users_unique. simpl.
    unfold insert_one. rewrite !fmap_app. simpl.
    split; apply NoDup_app; (split; [done|]); (split; [|apply NoDup_singleton]).
    + intros e (u & -> & Hu)%list_elem_of_fmap Heq%list_elem_of_singleton.
      by destruct (Hfresh u Hu).
    + intros e (u & -> & Hu)%list_elem_of_fmap Heq%list_elem_of_singleton.
      by destruct (Hfresh u Hu).
Qed.

End Login.

Lemma login_token_resolves_witness :
  find_one (by_email "alice@example.org") (users sample_db) = Some alice
  ∧ @verify_password model_crypt "hash-a" (User.password_hash alice) = true
  ∧ ∃ response,
      @login model_crypt model_jwt "k"
        {| login_email := "alice@example.org"; login_password := "hash-a" |}
        700 sample_db
      = (Returned response, sample_db)
      ∧ auth_user response
        = user_object "u1" "alice" "alice@example.org" EmptyString EmptyString.
Proof.
  split; [reflexivity|]. split; [reflexivity|].
  destruct (@login_token_resolves model_crypt model_jwt "k" sample_db
              {| login_email := "alice@example.org";
                 login_password := "hash-a" |} 700 alice eq_refl eq_refl)
    as (response & Hrun & Huser & _).
  exists response. split; assumption.
Defined.

Lemma register_then_login_witness :
  (∀ s p, @pwd_context_verify model_crypt p
            (@pwd_context_hash model_crypt s p) = true)
  ∧ (∀ u, u ∈ users sample_db →
          User.email u ≠ "carol@example.org"%string
          ∧ User.username u ≠ "carol"%string)
  ∧ ∃ d' response,
      @login model_crypt model_jwt "k"
        {| login_email := "carol@example.org"; login_password := "pw" |}
        400 d'
      = (Returned response, d')
      ∧ auth_user response
        = user_object "u3" "carol" "carol@example.org" EmptyString EmptyString.
Proof.
  assert (Hlaw : ∀ s p, @pwd_context_verify model_crypt p
                          (@pwd_context_hash model_crypt s p) = true).
  { intros s p. simpl. by apply bool_decide_eq_true_2. }
  assert (Hfresh : ∀ u, u ∈ users sample_db →
            User.email u ≠ "carol@example.org"%string
            ∧ User.username u ≠ "carol"%string).
  { intros u Hu. apply elem_of_cons in Hu as [->|Hu]; [done|].
    apply list_elem_of_singleton in Hu as ->. done. }
  split; [exact Hlaw|]. split; [exact Hfresh|].
  destruct (@register_then_login model_crypt model_jwt "k" sample_db
              {| reg_username := "carol"; reg_email := "carol@example.org";
                 reg_password := "pw" |} "u3" 300 "salt" 301 400 Hlaw Hfresh)
    as (d' & response & _ & Hlogin & Huser).
  exists d', response. split; assumption.
Defined.

Lemma register_keeps_users_unique_witness :
  users_unique sample_db
  ∧ users_unique
      (@register model_crypt model_jwt "k"
         {| reg_username := "carol"; reg_email := "carol@example.org";
            reg_password := "pw" |} "u3" 300 "salt" 301 sample_db).2.
Proof.
  assert (Huniq : users_unique sample_db).
  { split; apply (bool_decide_unpack _); vm_compute; exact I. }
  split; [exact Huniq|].
  exact (@register_keeps_users_unique model_crypt model_jwt "k" sample_db
           {| reg_username := "carol"; reg_email := "carol@example.org";
              reg_password := "pw" |} "u3" 300 "salt" 301 Huniq).
Defined.

(** ** Creating, reading and deleting articles *)

Lemma find_one_delete_one_other i j (l : list Article.t) :
  j ≠ i →
  find_one (by_id j) (delete_one (by_id i) l).2 = find_one (by_id j) l.
Proof.
  intros Hji. induction l as [|x l IH]; simpl; [done|].
  unfold by_id at 2 4.
  destruct (bool_decide_reflect (Article.id x = i)) as [Hi|Hi]; simpl.
  - rewrite bool_decide_eq_false_2 by congruence. done.
  - destruct (delete_one (by_id i) l) as [n l']. simpl in *.
    unfold by_id at 1. by rewrite IH.
Qed.

Lemma find_one_delete_one_same i (l : list Article.t) :
  NoDup (Article.id <$> l) →
  find_one (by_id i) (delete_one (by_id i) l).2 = None.
Proof.
  intros Hnd. apply find_one_None.
  intros b [_ Hb]%elem_of_delete_one_by_id; [|done].
  unfold by_id. by apply bool_decide_eq_false_2.
Qed.

Lemma find_delete_many_ne {A} (key : A → string) i j (l : list A) :
  i ≠ j →
  find (λ x, bool_decide (key x = j))
    (delete_many (λ x, bool_decide (key x = i)) l)
  = find (λ x, bool_decide (key x = j)) l.
Proof.
  intros Hij. unfold find, delete_many.
  induction l as [|x l IH]; simpl; [done|].
  destruct (bool_decide_reflect (key x = i)) as [Hi|Hi]; simpl.
  - rewrite bool_decide_eq_false_2 by congruence. done.
  - destruct (bool_decide (key x = j)); simpl; by rewrite IH.
Qed.

(** X8.  An article created under an id that no stored article has is
    what [get_article] returns for that id afterwards; it carries the
    author's id and username and both counters at zero, and what
    [get_article] answers for every other id is as before. *)
Theorem create_article_then_get d article_data current_user uuid
    created updated :
  uuid ∉ Article.id <$> articles d →
  ∃ a d',
    create_article article_data current_user uuid created updated d
    = (Returned a, d')
    ∧ get_article uuid d' = (Returned a, d')
    ∧ Article.author_id a = User.id current_user
    ∧ Article.author_username a = User.username current_user
    ∧ Article.likes_count a = 0
    ∧ Article.comments_count a = 0
    ∧ ∀ j, j ≠ uuid → (get_article j d').1 = (get_article j d).1.
Proof.
  intros Hfresh. do 2 eexists. split; [reflexivity|].
  assert (Hnone : find_one (by_id uuid) (articles d) = None).
  { apply find_one_None. intros b Hb. unfold by_id.
    apply bool_decide_eq_false_2. intros Heq. apply Hfresh.
    rewrite <- Heq. by apply list_elem_of_fmap_2. }
  split; [|repeat split].
  - unfold get_article. run_handler. unfold insert_one.
    rewrite find_one_app, Hnone. simpl. unfold by_id. simpl.
    by rewrite bool_decide_eq_true_2.
  - intros j Hj. unfold get_article. run_handler. unfold insert_one.
    rewrite find_one_app.
    destruct (find_one (by_id j) (articles d)); [done|]. simpl.
    unfold by_id. simpl. by rewrite bool_decide_eq_false_2.
Qed.

Lemma create_article_then_get_witness :
  ("a2" ∉ Article.id <$> articles sample_db)
  ∧ ∃ a d',
      create_article
        {| new_title := "Second"; new_content := "More";
           new_tags := []; new_cover_image := None |} bob "a2" 300 301
        sample_db
      = (Returned a, d')
      ∧ get_article "a2" d' = (Returned a, d').
Proof.
  assert (Hfresh : "a2" ∉ Article.id <$> articles sample_db)
    by (apply (bool_decide_unpack _); vm_compute; exact I).
  split; [exact Hfresh|].
  destruct (create_article_then_get sample_db
              {| new_title := "Second"; new_content := "More";
                 new_tags := []; new_cover_image := None |} bob "a2" 300 301
              Hfresh)
    as (a & d' & Hcreate & Hget & _).
  exists a, d'. split; assumption.
Defined.

(** X9.  In a store with distinct article ids, once the author has
    deleted an article [get_article] answers 404 for its id; for every
    other id [get_article] and [get_comments] answer as before, the
    likes of other articles are kept, and the users are untouched. *)
Theorem delete_article_then_get d article_id a current_user :
  NoDup (Article.id <$> articles d) →
  find_one (by_id article_id) (articles d) = Some a →
  Article.author_id a = User.id current_user →
  ∃ d',
    delete_article article_id current_user d
    = (Returned "Article deleted"%string, d')
    ∧ get_article article_id d' = (Raised ArticleNotFound, d')
    ∧ users d' = users d
    ∧ ∀ j, j ≠ article_id →
        (get_article j d').1 = (get_article j d).1
        ∧ (get_comments j d').1 = (get_comments j d).1
        ∧ find (λ l, bool_decide (Like.article_id l = j)) (likes d')
          = find (λ l, bool_decide (Like.article_id l = j)) (likes d).
Proof.
  intros Hnd Ha Heq. eexists.
  split; [by apply (delete_article_author _ _ _ _ Ha Heq)|].
  split; [|split; [done|]].
  - unfold get_article. run_handler.
    by rewrite (find_one_delete_one_same _ _ Hnd).
  - intros j Hj. split; [|split].
    + unfold get_article. run_handler.
      rewrite (find_one_delete_one_other _ _ _ Hj).
      by destruct (find_one (by_id j) (articles d)).
    + unfold get_comments. run_handler.
      rewrite (find_delete_many_ne Comment.article_id); [done|congruence].
    + cbn [likes].
      rewrite (find_delete_many_ne Like.article_id); [done|congruence].
Qed.

Lemma delete_article_then_get_witness :
  NoDup (Article.id <$> articles sample_db)
  ∧ find_one (by_id "a1") (articles sample_db) = Some first_post
  ∧ Article.author_id first_post = User.id alice
  ∧ ∃ d',
      delete_article "a1" alice sample_db
      = (Returned "Article deleted"%string, d')
      ∧ get_article "a1" d' = (Raised ArticleNotFound, d').
Proof.
  assert (Hnd : NoDup (Article.id <$> articles sample_db))
    by (apply (bool_decide_unpack _); vm_compute; exact I).
  split; [exact Hnd|]. split; [reflexivity|]. split; [reflexivity|].
  destruct (delete_article_then_get sample_db "a1" first_post alice
              Hnd eq_refl eq_refl) as (d' & Hdel & Hget & _).
  exists d'. split; assumption.
Defined.

(** ** Likes *)

Lemma like_of_pair article_id user_id l :
  like_of article_id user_id l = true
  ↔ (Like.article_id l, Like.user_id l) = (article_id, user_id).
Proof.
  unfold like_of. rewrite andb_true_iff, !bool_decide_eq_true.
  split; [by intros [-> ->] | by intros [= -> ->]].
Qed.

Lemma find_one_delete_one_key {A K} (key : A → K) (k : K) (q : A → bool) l :
  (∀ x, q x = true ↔ key x = k) →
  NoDup (key <$> l) →
  find_one q (delete_one q l).2 = None.
Proof.
  intros Hq. induction l as [|x l IH]; simpl; [done|].
  intros [Hx Hnd]%NoDup_cons.
  destruct (q x) eqn:Hqx; simpl.
  - apply find_one_None. intros y Hy.
    destruct (q y) eqn:Hqy; [|done]. exfalso. apply Hx.
    apply Hq in Hqx, Hqy. rewrite Hqx, <- Hqy. by apply list_elem_of_fmap_2.
  - specialize (IH Hnd). destruct (delete_one q l) as [n l'].
    simpl in *. by rewrite Hqx.
Qed.

Lemma length_delete_one {A} (q : A → bool) l :
  (length l ≤ S (length (delete_one q l).2))%nat.
Proof.
  induction l as [|x l IH]; simpl; [lia|].
  destruct (q x); simpl; [lia|].
  destruct (delete_one q l) as [n l']. simpl in *. lia.
Qed.

Lemma like_pairs_insert_one d article_id current_user uuid now us arts cs :
  NoDup (like_pairs d) →
  find_one (like_of article_id (User.id current_user)) (likes d) = None →
  NoDup (like_pairs
           (mkDB us arts cs
              (insert_one (new_like article_id current_user uuid now)
                 (likes d)))).
Proof.
  intros Hnd Hnone. unfold like_pairs, insert_one. simpl.
  rewrite fmap_app. apply NoDup_app. split; [done|].
  split; [|apply NoDup_singleton].
  intros p (l & -> & Hl)%list_elem_of_fmap Heq%list_elem_of_singleton.
  rewrite find_one_None in Hnone. specialize (Hnone l Hl).
  simpl in Heq. apply like_of_pair in Heq. congruence.
Qed.

Lemma like_pairs_sublist d us arts cs ls :
  NoDup (like_pairs d) → ls `sublist_of` likes d →
  NoDup (like_pairs (mkDB us arts cs ls)).
Proof.
  intros Hnd Hsub. unfold like_pairs in *. simpl.
  eapply sublist_NoDup; [exact Hnd|]. by apply fmap_sublist.
Qed.

Lemma like_pairs_run o d : NoDup (like_pairs d) → NoDup (like_pairs (run o d)).
Proof.
  intros Hnd. destruct o; simpl.
  - destruct (find_one (by_id article_id) (articles d)) as [a|] eqn:Ha.
    2: { unfold like_article. run_handler. by rewrite Ha. }
    destruct (find_one (like_of article_id (User.id current_user)) (likes d))
      as [l|] eqn:Hl.
    + by rewrite (like_article_existing _ _ _ _ _ _ _ Ha Hl).
    + rewrite (like_article_new _ _ _ _ _ _ Ha Hl). simpl.
      by apply (like_pairs_insert_one d).
  - destruct (find_one (like_of article_id (User.id current_user)) (likes d))
      as [l|] eqn:Hl.
    + rewrite (unlike_article_present _ _ _ _ Hl). simpl.
      apply (like_pairs_sublist d); [done | apply delete_one_sublist].
    + by rewrite (unlike_article_missing _ _ _ Hl).
  - destruct (find_one (by_id article_id) (articles d)) as [a|] eqn:Ha.
    + by rewrite (create_comment_found _ _ _ _ _ _ _ Ha).
    + unfold create_comment. run_handler. by rewrite Ha.
  - done.
  - destruct (find_one (by_id article_id) (articles d)) as [a|] eqn:Ha.
    2: { unfold update_article. run_handler. by rewrite Ha. }
    destruct (decide (Article.author_id a = User.id current_user))
      as [Heq|Hne].
    + by rewrite (update_article_author _ _ _ _ _ _ Ha Heq).
    + by rewrite (update_article_forbidden _ _ _ _ _ _ Ha Hne).
  - destruct (find_one (by_id article_id) (articles d)) as [a|] eqn:Ha.
    2: { unfold delete_article. run_handler. by rewrite Ha. }
    destruct (decide (Article.author_id a = User.id current_user))
      as [Heq|Hne].
    + rewrite (delete_article_author _ _ _ _ Ha Heq). simpl.
      apply (like_pairs_sublist d); [done | apply delete_many_sublist].
    + by rewrite (delete_article_forbidden _ _ _ _ Ha Hne).
Qed.

(** X10.  In every state that sequential execution reaches from the
    empty database there is at most one like record per (article, user)
    pair: the existence check of [like_article] is enough to keep the
    pairs distinct. *)
Theorem one_like_per_pair d : reachable d → NoDup (like_pairs d).
Proof.
  induction 1 as [|d o _ IH _]; [constructor | by apply like_pairs_run].
Qed.

Lemma one_like_per_pair_witness :
  reachable sample_run ∧ NoDup (like_pairs sample_run).
Proof.
  assert (Hreach : reachable sample_run).
  { unfold sample_run. repeat apply reachable_step;
      [apply reachable_empty | | exact I | exact I | exact I].
    simpl. apply not_elem_of_nil. }
  split; [exact Hreach | exact (one_like_per_pair sample_run Hreach)].
Defined.

(** X11.  After [like_article] on a stored article, [is_article_liked]
    answers true for that user, whether the call inserted the like or
    found it; and when the store holds at most one like per pair,
    [is_article_liked] answers false after [unlike_article], whether the
    call removed a like or found none. *)
Theorem is_article_liked_follows d article_id current_user uuid now :
  (is_Some (find_one (by_id article_id) (articles d)) →
   ∃ d', (like_article article_id current_user uuid now d).2 = d'
         ∧ is_article_liked article_id current_user d' = (Returned true, d'))
  ∧ (NoDup (like_pairs d) →
     ∃ d', (unlike_article article_id current_user d).2 = d'
           ∧ is_article_liked article_id current_user d'
             = (Returned false, d')).
Proof.
  split.
  - intros [a Ha]. eexists. split; [reflexivity|].
    destruct (find_one (like_of article_id (User.id current_user)) (likes d))
      as [l|] eqn:Hl.
    + rewrite (like_article_existing _ _ _ _ _ _ _ Ha Hl). simpl.
      unfold is_article_liked. run_handler. by rewrite Hl.
    + rewrite (like_article_new _ _ _ _ _ _ Ha Hl). simpl.
      unfold is_article_liked. run_handler.
      rewrite (find_one_insert_one _ _ _ Hl (like_of_new_like _ _ _ _)).
      done.
  - intros Hnd. eexists. split; [reflexivity|].
    destruct (find_one (like_of article_id (User.id current_user)) (likes d))
      as [l|] eqn:Hl.
    + rewrite (unlike_article_present _ _ _ _ Hl). simpl.
      unfold is_article_liked. run_handler.
      rewrite (find_one_delete_one_key
                 (λ l, (Like.article_id l, Like.user_id l))
                 (article_id, User.id current_user)); [done | | done].
      intros x. apply like_of_pair.
    + rewrite (unlike_article_missing _ _ _ Hl). simpl.
      unfold is_article_liked. run_handler. by rewrite Hl.
Qed.

Lemma inc_likes_count_back a :
  inc_likes_count (-1) (inc_likes_count 1 a) = a.
Proof.
  destruct a. unfold inc_likes_count. simpl. f_equal. lia.
Qed.

(** X12.  For a stored article and a user without a like on it,
    [like_article] followed by [unlike_article] gives back the database
    the two calls started from, record for record. *)
Theorem like_then_unlike_restores d article_id a current_user uuid now :
  find_one (by_id article_id) (articles d) = Some a →
  find_one (like_of article_id (User.id current_user)) (likes d) = None →
  unlike_article article_id current_user
    (like_article article_id current_user uuid now d).2
  = (Returned "Unliked"%string, d).
Proof.
  intros Ha Hl. rewrite (like_article_new _ _ _ _ _ _ Ha Hl). simpl.
  rewrite (unlike_article_present _ _ _
             (new_like article_id current_user uuid now)).
  2: { simpl. apply find_one_insert_one; [done | apply like_of_new_like]. }
  simpl.
  rewrite (delete_one_insert_one _ _ _ Hl (like_of_new_like _ _ _ _)).
  rewrite update_one_update_one by done.
  rewrite (update_one_id _ _ _ inc_likes_count_back).
  by destruct d.
Qed.

Lemma like_then_unlike_restores_witness :
  find_one (by_id "a1") (articles sample_db) = Some first_post
  ∧ find_one (like_of "a1" (User.id alice)) (likes sample_db) = None
  ∧ unlike_article "a1" alice (like_article "a1" alice "l2" 170 sample_db).2
    = (Returned "Unliked"%string, sample_db).
Proof.
  split; [reflexivity|]. split; [reflexivity|].
  exact (like_then_unlike_restores sample_db "a1" first_post alice "l2" 170
           eq_refl eq_refl).
Defined.

(** X13.  [unlike_article] touches only the caller's like on that
    article: every like record of another user or another article is
    still stored afterwards, at most one record is removed, and users
    and comments are untouched. *)
Theorem unlike_keeps_other_likes d article_id current_user :
  (∀ l, l ∈ likes d →
        Like.user_id l ≠ User.id current_user
        ∨ Like.article_id l ≠ article_id →
        l ∈ likes (unlike_article article_id current_user d).2)
  ∧ (length (likes d)
     ≤ S (length (likes (unlike_article article_id current_user d).2)))%nat
  ∧ users (unlike_article article_id current_user d).2 = users d
  ∧ comments (unlike_article article_id current_user d).2 = comments d.
Proof.
  assert (Hlikes : likes (unlike_article article_id current_user d).2
            = (delete_one (like_of article_id (User.id current_user))
                 (likes d)).2).
  { destruct (find_one (like_of article_id (User.id current_user)) (likes d))
      as [l|] eqn:Hl.
    - by rewrite (unlike_article_present _ _ _ _ Hl).
    - rewrite (unlike_article_missing _ _ _ Hl).
      by rewrite (delete_one_None _ _ Hl). }
  rewrite Hlikes. split; [|split; [apply length_delete_one|]].
  - intros l Hin Hother. apply elem_of_delete_one_keep; [done|].
    destruct (like_of article_id (User.id current_user) l) eqn:Hq; [|done].
    apply like_of_pair in Hq. injection Hq as Ha Hu.
    destruct Hother; congruence.
  - destruct (find_one (like_of article_id (User.id current_user)) (likes d))
      as [l|] eqn:Hl.
    + by rewrite (unlike_article_present _ _ _ _ Hl).
    + by rewrite (unlike_article_missing _ _ _ Hl).
Qed.

(** ** Listings of comments, profiles and articles *)

Lemma listing_facts {A} (c : A → datetime) (q : A → bool) (n : nat) l :
  (∀ x, x ∈ to_list n (sort_desc c (find q l)) → x ∈ l ∧ q x = true)
  ∧ StronglySorted (newer_first c) (to_list n (sort_desc c (find q l)))
  ∧ ((length (find q l) ≤ n)%nat →
     to_list n (sort_desc c (find q l)) ≡ₚ find q l).
Proof.
  unfold to_list. split; [|split].
  - intros x (i & Hi & _)%elem_of_take.
    apply list_elem_of_lookup_2 in Hi. rewrite sort_desc_perm in Hi.
    by apply elem_of_find.
  - pose proof (sort_desc_sorted c (find q l)) as Hs.
    rewrite <- (take_drop n (sort_desc c (find q l))) in Hs.
    by apply StronglySorted_app in Hs as (_ & Htake & _).
  - intros Hlen. rewrite take_ge by (by rewrite length_sort_desc).
    apply sort_desc_perm.
Qed.

Lemma find_none {A} (q : A → bool) l :
  (∀ x, x ∈ l → q x = false) → find q l = [].
Proof.
  unfold find. induction l as [|x l IH]; simpl; [done|].
  intros Hall. rewrite (Hall x) by left. apply IH.
  intros y Hy. apply Hall. by right.
Qed.

(** X14.  [get_comments] returns stored comments of the requested
    article only, newest first, and all of them when the article has at
    most 1000; it does not check that the article exists and answers an
    unknown id with the empty list. *)
Theorem get_comments_listing d article_id :
  ∃ l,
    get_comments article_id d = (Returned l, d)
    ∧ (∀ c, c ∈ l → c ∈ comments d ∧ Comment.article_id c = article_id)
    ∧ StronglySorted (newer_first Comment.created_at) l
    ∧ ((length (find (λ c, bool_decide (Comment.article_id c = article_id))
                  (comments d)) ≤ 1000)%nat →
       l ≡ₚ find (λ c, bool_decide (Comment.article_id c = article_id))
              (comments d))
    ∧ ((∀ c, c ∈ comments d → Comment.article_id c ≠ article_id) → l = []).
Proof.
  eexists. split; [reflexivity|]. cbv beta.
  destruct (listing_facts Comment.created_at
              (λ c, bool_decide (Comment.article_id c = article_id))
              1000 (comments d)) as (Hin & Hsorted & Hall).
  split; [|split; [exact Hsorted | split; [exact Hall|]]].
  - intros c [Hc Hq]%Hin. split; [done | by apply bool_decide_eq_true in Hq].
  - intros Hnone.
    rewrite find_none; [done|].
    intros c Hc. apply bool_decide_eq_false_2. auto.
Qed.

Lemma find_insert_one {A} (q : A → bool) x l :
  find q (insert_one x l) = find q l ++ (if q x then [x] else []).
Proof.
  unfold find, insert_one. rewrite List.filter_app. simpl.
  by destruct (q x).
Qed.

(** X15.  A comment created on a stored article that has fewer than
    1000 comments is in the list that [get_comments] returns for that
    article afterwards; it carries the actor's id and username. *)
Theorem create_comment_then_listed d article_id a comment_data
    current_user uuid now :
  find_one (by_id article_id) (articles d) = Some a →
  (length (find (λ c, bool_decide (Comment.article_id c = article_id))
             (comments d)) < 1000)%nat →
  ∃ c d' l,
    create_comment article_id comment_data current_user uuid now d
    = (Returned c, d')
    ∧ get_comments article_id d' = (Returned l, d')
    ∧ c ∈ l
    ∧ Comment.article_id c = article_id
    ∧ Comment.user_id c = User.id current_user
    ∧ Comment.username c = User.username current_user
    ∧ Comment.content c = comment_content comment_data.
Proof.
  intros Ha Hlen. do 3 eexists.
  split; [by apply (create_comment_found _ _ _ _ _ _ _ Ha)|].
  split; [reflexivity|]. split; [|done]. cbv beta. cbn [comments].
  destruct (listing_facts Comment.created_at
              (λ c, bool_decide (Comment.article_id c = article_id)) 1000
              (insert_one
                 (new_comment article_id comment_data current_user uuid now)
                 (comments d))) as (_ & _ & Hall).
  rewrite Hall.
  - rewrite find_insert_one. simpl. rewrite bool_decide_eq_true_2 by done.
    apply elem_of_app. right. left.
  - rewrite find_insert_one, length_app. simpl.
    rewrite bool_decide_eq_true_2 by done. simpl. lia.
Qed.

Lemma create_comment_then_listed_witness :
  find_one (by_id "a1") (articles sample_db) = Some first_post
  ∧ (length (find (λ c, bool_decide (Comment.article_id c = "a1"%string))
               (comments sample_db)) < 1000)%nat
  ∧ ∃ c d' l,
      create_comment "a1" {| comment_content := "Again" |} alice "c2" 400
        sample_db
      = (Returned c, d')
      ∧ get_comments "a1" d' = (Returned l, d')
      ∧ c ∈ l.
Proof.
  assert (Hlen : (length (find (λ c, bool_decide
                                       (Comment.article_id c = "a1"%string))
                            (comments sample_db)) < 1000)%nat)
    by (vm_compute; lia).
  split; [reflexivity|]. split; [exact Hlen|].
  destruct (create_comment_then_listed sample_db "a1" first_post
              {| comment_content := "Again" |} alice "c2" 400 eq_refl Hlen)
    as (c & d' & l & Hcreate & Hget & Hin & _).
  exists c, d', l. auto.
Defined.

(** X16.  [get_user_profile] answers 404 "User not found" for a
    username that no stored user has; otherwise it returns the stored
    document of the first user of that name without its password hash
    (email and creation time included) together with stored articles
    whose author username is the requested one, newest first. *)
Theorem get_user_profile_contents d username :
  ((∀ u, u ∈ users d → User.username u ≠ username) →
   get_user_profile username d = (Raised ProfileNotFound, d))
  ∧ (∀ u,
       find_one (λ u, bool_decide (User.username u = username)) (users d)
       = Some u →
       ∃ r,
         get_user_profile username d = (Returned r, d)
         ∧ profile_user r
           = <["id" := VStr (User.id u)]>
             (<["username" := VStr username]>
             (<["email" := VStr (User.email u)]>
             (<["bio" := VStr (User.bio u)]>
             (<["avatar" := VStr (User.avatar u)]>
             (<["created_at" := VDate (User.created_at u)]> ∅)))))
         ∧ (∀ a, a ∈ profile_articles r →
                 a ∈ articles d ∧ Article.author_username a = username)
         ∧ StronglySorted (newer_first Article.created_at)
             (profile_articles r)).
Proof.
  split.
  - intros Hnone. unfold get_user_profile. run_handler.
    assert (find_one (λ u, bool_decide (User.username u = username))
              (users d) = None) as ->; [|done].
    apply find_one_None. intros u Hu. apply bool_decide_eq_false_2. auto.
  - intros u Hu.
    exists {| profile_user := delete "password_hash" (User.document u);
              profile_articles :=
                to_list 100 (sort_desc Article.created_at
                  (find (λ a, bool_decide
                                (Article.author_username a = username))
                     (articles d))) |}.
    split; [unfold get_user_profile; run_handler; by rewrite Hu|].
    cbn [profile_user profile_articles].
    destruct (listing_facts Article.created_at
                (λ a, bool_decide (Article.author_username a = username))
                100 (articles d)) as (Hin & Hsorted & _).
    split; [|split; [|exact Hsorted]].
    + rewrite document_projection.
      apply find_one_Some in Hu as [_ Hq].
      apply bool_decide_eq_true in Hq. by rewrite Hq.
    + intros a [Ha Hq]%Hin. split; [done|].
      by apply bool_decide_eq_true in Hq.
Qed.

Lemma articles_query_empty_tag author a :
  articles_query (Some EmptyString) author a = articles_query None author a.
Proof. done. Qed.

Lemma articles_query_empty_author tag a :
  articles_query tag (Some EmptyString) a = articles_query tag None a.
Proof. done. Qed.

(** X17.  In [get_articles] an empty [tag] or [author] filters nothing,
    like an absent one; without filters the result is the whole
    collection when it holds at most 1000 articles; with both filters
    every returned article carries the tag and the author username. *)
Theorem get_articles_filters d :
  (∀ author,
     get_articles (Some EmptyString) author d = get_articles None author d)
  ∧ (∀ tag,
     get_articles tag (Some EmptyString) d = get_articles tag None d)
  ∧ (∃ l, get_articles None None d = (Returned l, d)
          ∧ StronglySorted (newer_first Article.created_at) l
          ∧ ((length (articles d) ≤ 1000)%nat → l ≡ₚ articles d))
  ∧ (∀ X author, X ≠ EmptyString → author ≠ EmptyString →
     ∃ l, get_articles (Some X) (Some author) d = (Returned l, d)
          ∧ ∀ a, a ∈ l →
              a ∈ articles d
              ∧ X ∈ Article.tags a
              ∧ Article.author_username a = author).
Proof.
  split; [done|]. split; [done|]. split.
  - eexists. split; [reflexivity|]. cbv beta.
    assert (Hfind : find (articles_query None None) (articles d)
                    = articles d).
    { unfold find. induction (articles d) as [|a l IH]; simpl; [done|].
      by rewrite IH. }
    destruct (listing_facts Article.created_at (articles_query None None)
                1000 (articles d)) as (_ & Hsorted & Hall).
    split; [exact Hsorted|]. intros Hlen.
    rewrite Hall by (by rewrite Hfind). by rewrite Hfind.
  - intros X author HX Hauthor. eexists. split; [reflexivity|]. cbv beta.
    destruct (listing_facts Article.created_at
                (articles_query (Some X) (Some author))
                1000 (articles d)) as (Hin & _).
    intros a [Ha Hq]%Hin. split; [done|].
    unfold articles_query in Hq. simpl in Hq.
    rewrite (bool_decide_eq_false_2 (X = EmptyString)),
      (bool_decide_eq_false_2 (author = EmptyString)) in Hq by done.
    simpl in Hq. apply andb_true_iff in Hq as [H1 H2].
    by apply bool_decide_eq_true in H1, H2.
Qed.

(** ** Reachable states *)

(** X18.  In every state that sequential execution reaches from the
    empty database no counter is negative: [unlike_article] decrements
    only after it removed a like record, so [likes_count] never falls
    below zero, and neither does [comments_count]. *)
Theorem counters_never_negative d :
  reachable d →
  ∀ a, a ∈ articles d →
    0 ≤ Article.likes_count a ∧ 0 ≤ Article.comments_count a.
Proof.
  intros Hreach a Ha.
  destruct (reachable_invariant d Hreach) as [_ Hcount].
  destruct (Hcount a Ha) as [-> ->]. lia.
Qed.

Lemma reachable_sample_run : reachable sample_run.
Proof.
  unfold sample_run. repeat apply reachable_step;
    [apply reachable_empty | | exact I | exact I | exact I].
  simpl. apply not_elem_of_nil.
Qed.

Lemma counters_never_negative_witness :
  reachable sample_run
  ∧ ∀ a, a ∈ articles sample_run →
      0 ≤ Article.likes_count a ∧ 0 ≤ Article.comments_count a.
Proof.
  split; [exact reachable_sample_run|].
  exact (counters_never_negative sample_run reachable_sample_run).
Defined.

(** X19.  In every reachable state article ids are pairwise distinct
    and every like and every comment refers to a stored article: the
    cascade of [delete_article] leaves no orphan. *)
Theorem no_orphans d :
  reachable d →
  NoDup (Article.id <$> articles d)
  ∧ (∀ l, l ∈ likes d → ∃ a, a ∈ articles d ∧ Article.id a = Like.article_id l)
  ∧ (∀ c, c ∈ comments d →
          ∃ a, a ∈ articles d ∧ Article.id a = Comment.article_id c).
Proof.
  intros Hreach.
  destruct (reachable_invariant d Hreach) as [(Hnd & Hl & Hc) _].
  split; [done|]. split.
  - intros l (a & ? & ?)%Hl%list_elem_of_fmap. eauto.
  - intros c (a & ? & ?)%Hc%list_elem_of_fmap. eauto.
Qed.

Lemma no_orphans_witness :
  reachable sample_run ∧ NoDup (Article.id <$> articles sample_run).
Proof.
  split; [exact reachable_sample_run|].
  exact (proj1 (no_orphans sample_run reachable_sample_run)).
Defined.

(** X20.  In a reachable state every stored article is the one that
    [get_article] returns for its id. *)
Theorem stored_article_is_found d a :
  reachable d → a ∈ articles d →
  get_article (Article.id a) d = (Returned a, d).
Proof.
  intros Hreach Ha.
  destruct (reachable_invariant d Hreach) as [(Hnd & _) _].
  unfold get_article. run_handler.
  by rewrite (find_one_by_id_unique _ _ Hnd Ha).
Qed.

Lemma stored_article_is_found_witness :
  reachable sample_run
  ∧ ∀ a, a ∈ articles sample_run →
      get_article (Article.id a) sample_run = (Returned a, sample_run).
Proof.
  split; [exact reachable_sample_run|].
  intros a Ha.
  exact (stored_article_is_found sample_run a reachable_sample_run Ha).
Defined.

(** ** Updating twice *)

Lemma set_update_data_twice article_data now1 now2 a :
  set_update_data article_data now2 (set_update_data article_data now1 a)
  = set_update_data article_data now2 a.
Proof.
  unfold set_update_data. simpl.
  destruct (patch_title article_data), (patch_content article_data),
    (patch_tags article_data), (patch_cover_image article_data); done.
Qed.

Lemma update_one_ext {A} (q : A → bool) (f g : A → A) l :
  (∀ x, f x = g x) → update_one q f l = update_one q g l.
Proof.
  intros Hfg. induction l as [|x l IH]; simpl; [done|].
  destruct (q x); by rewrite ?Hfg, ?IH.
Qed.

(** X21.  When the author sends the same patch twice, the second
    [update_article] gives the response and the database that a single
    update at the later time gives: a repeated patch changes nothing but
    [updated_at]. *)
Theorem update_article_twice d article_id a article_data current_user
    now1 now2 :
  find_one (by_id article_id) (articles d) = Some a →
  Article.author_id a = User.id current_user →
  update_article article_id article_data current_user now2
    (update_article article_id article_data current_user now1 d).2
  = update_article article_id article_data current_user now2 d.
Proof.
  intros Ha Heq.
  rewrite (update_article_author _ _ _ _ now1 _ Ha Heq). cbn [snd].
  rewrite (update_article_author _ _ _ _ now2 _ Ha Heq).
  rewrite (update_article_author _ _ article_data current_user now2
             (set_update_data article_data now1 a)).
  - rewrite set_update_data_twice. f_equal.
    unfold set_articles. simpl. f_equal.
    rewrite update_one_update_one by done.
    apply update_one_ext. intros x. apply set_update_data_twice.
  - simpl. apply find_one_update_one; [done|].
    rewrite by_id_set_update_data. by apply find_one_Some in Ha as [_ ?].
  - done.
Qed.

Lemma update_article_twice_witness :
  find_one (by_id "a1") (articles sample_db) = Some first_post
  ∧ Article.author_id first_post = User.id alice
  ∧ update_article "a1" retitle alice 300
      (update_article "a1" retitle alice 200 sample_db).2
    = update_article "a1" retitle alice 300 sample_db.
Proof.
  split; [reflexivity|]. split; [reflexivity|].
  exact (update_article_twice sample_db "a1" first_post retitle alice 200 300
           eq_refl eq_refl).
Defined.

(** ** Handlers that only read *)

(** X22.  [get_articles], [get_article], [get_comments],
    [get_user_profile], [is_article_liked], [get_me], [login] and
    [get_current_user] never write: the database after the call is the
    database before it, whether the call returned or raised. *)
Theorem read_handlers_write_nothing `{CryptContext} `{JWT}
    (SECRET_KEY : string) d :
  (∀ tag author, (get_articles tag author d).2 = d)
  ∧ (∀ article_id, (get_article article_id d).2 = d)
  ∧ (∀ article_id, (get_comments article_id d).2 = d)
  ∧ (∀ username, (get_user_profile username d).2 = d)
  ∧ (∀ article_id current_user,
       (is_article_liked article_id current_user d).2 = d)
  ∧ (∀ current_user, (get_me current_user d).2 = d)
  ∧ (∀ credentials issued, (login SECRET_KEY credentials issued d).2 = d)
  ∧ (∀ credentials now,
       (get_current_user SECRET_KEY credentials now d).2 = d).
Proof.
  repeat split; try done.
  - intros article_id. unfold get_article. run_handler.
    by destruct (find_one _ (articles d)).
  - intros username. unfold get_user_profile. run_handler.
    by destruct (find_one _ (users d)).
  - intros credentials issued. unfold login. run_handler.
    destruct (find_one _ (users d)) as [u|]; simpl; [|done].
    by destruct (verify_password _ _).
  - intros credentials now.
    by destruct (get_current_user_cases SECRET_KEY d credentials now)
      as [(user & -> & _)|[-> | ->]].
Qed.

(** ** Runs of the further properties on the sample store *)

Lemma login_rejections_witness :
  (∀ u, u ∈ users sample_db → User.email u ≠ "nobody@example.org"%string)
  ∧ @login model_crypt model_jwt "k"
      {| login_email := "nobody@example.org"; login_password := "pw" |}
      700 sample_db
    = (Raised InvalidCredentials, sample_db).
Proof.
  assert (Hnone : ∀ u, u ∈ users sample_db →
            User.email u ≠ "nobody@example.org"%string).
  { intros u Hu. apply elem_of_cons in Hu as [->|Hu]; [done|].
    apply list_elem_of_singleton in Hu as ->. done. }
  split; [exact Hnone|].
  exact (proj1 (@login_rejections model_crypt model_jwt "k" sample_db
                  {| login_email := "nobody@example.org";
                     login_password := "pw" |} 700) Hnone).
Defined.

Lemma is_article_liked_follows_witness :
  is_Some (find_one (by_id "a1") (articles sample_db))
  ∧ ∃ d', (like_article "a1" alice "l2" 170 sample_db).2 = d'
          ∧ is_article_liked "a1" alice d' = (Returned true, d').
Proof.
  assert (Hsome : is_Some (find_one (by_id "a1") (articles sample_db)))
    by (exists first_post; reflexivity).
  split; [exact Hsome|].
  exact (proj1 (is_article_liked_follows sample_db "a1" alice "l2" 170)
           Hsome).
Defined.

Lemma get_user_profile_contents_witness :
  find_one (λ u, bool_decide (User.username u = "alice"%string))
    (users sample_db) = Some alice
  ∧ ∃ r, get_user_profile "alice" sample_db = (Returned r, sample_db)
         ∧ ∀ a, a ∈ profile_articles r →
             a ∈ articles sample_db
             ∧ Article.author_username a = "alice"%string.
Proof.
  split; [reflexivity|].
  destruct (proj2 (get_user_profile_contents sample_db "alice") alice eq_refl)
    as (r & Hrun & _ & Harts & _).
  exists r. split; assumption.
Defined.

Example unlike_keeps_other_likes_example :
  likes (unlike_article "a1" alice sample_db).2 = likes sample_db
  ∧ likes (unlike_article "a1" bob sample_db).2 = [].
Proof. by vm_compute. Qed.
